(** * files_renamer: a shallow embedding of [src/src/utils.py],
    [src/src/renamer.py] and the backup part of [src/cli.py].

    Conventions of the model.
    - A Python [str] is a [list ascii]; a character is read as its code
      point (0..255).  The case transforms [str.lower], [str.upper] and
      [str.title] are modelled by their ASCII mapping; characters above
      127 are left unchanged by them.
    - A [pathlib.Path] is modelled by its string [str(p)].  The rename plan
      built from a directory [src] maps [src / name] to [src / new_name];
      since every key and value lives under the same [src], the plan is
      kept as the list of pairs of names.
    - The file system of the runners is a finite map from path to a file
      identity (a [Z]); [uuid.uuid4().hex] is an injected supply
      [uuid_hex : nat -> list ascii] read at a counter.
    - [pathlib] semantics are those of CPython 3.12 ([suffix] and [stem]
      of a name ending in ['.'] are [''] and the whole name). *)

From Stdlib Require Import ZArith Lia Ascii List Bool.
From Stdlib Require Import Sorting.Permutation Sorting.Sorted.
From stdpp Require Import base list gmap strings.
Import ListNotations.

Open Scope Z_scope.

Abbreviation pystr := (list ascii).

(** String literals of the model, written as Rocq strings. *)
Definition py (s : String.string) : pystr := String.list_ascii_of_string s.

(** ** Characters *)

Definition code (c : ascii) : Z := Z.of_nat (nat_of_ascii c).
Definition chr (n : Z) : ascii := ascii_of_nat (Z.to_nat n).

Definition is_digit (c : ascii) : bool := (48 <=? code c) && (code c <=? 57).
Definition is_upper (c : ascii) : bool := (65 <=? code c) && (code c <=? 90).
Definition is_lower (c : ascii) : bool := (97 <=? code c) && (code c <=? 122).
Definition is_cased (c : ascii) : bool := is_upper c || is_lower c.

Definition lower_char (c : ascii) : ascii :=
  if is_upper c then chr (code c + 32) else c.
Definition upper_char (c : ascii) : ascii :=
  if is_lower c then chr (code c - 32) else c.

(** [str.lower], [str.upper] and [str.title]: [title] upper-cases a
    character that follows an uncased one and lower-cases one that follows
    a cased one. *)
Definition py_lower (s : pystr) : pystr := map lower_char s.
Definition py_upper (s : pystr) : pystr := map upper_char s.

Fixpoint title_aux (previous_is_cased : bool) (s : pystr) : pystr :=
  match s with
  | [] => []
  | c :: r =>
      (if previous_is_cased then lower_char c else upper_char c)
        :: title_aux (is_cased c) r
  end.
Definition py_title (s : pystr) : pystr := title_aux false s.

(** [sep.join(parts)] *)
Fixpoint py_join (sep : pystr) (parts : list pystr) : pystr :=
  match parts with
  | [] => []
  | [p] => p
  | p :: ps => p ++ sep ++ py_join sep ps
  end.

(** Python's [<] on strings: code-point lexicographic order. *)
Fixpoint str_lt (a b : pystr) : bool :=
  match a, b with
  | _, [] => false
  | [], _ :: _ => true
  | x :: a', y :: b' =>
      if code x <? code y then true
      else if code y <? code x then false
      else str_lt a' b'
  end.

Definition str_eqb (a b : pystr) : bool := bool_decide (a = b).

(** ** Integers as text: [str(n)], [int(digits)], [s.zfill(width)] *)

Definition digit_char (d : Z) : ascii := chr (48 + d).

Fixpoint digits_aux (fuel : nat) (n : Z) (acc : pystr) : pystr :=
  match fuel with
  | O => acc
  | S f =>
      let acc' := digit_char (n mod 10) :: acc in
      if n <? 10 then acc' else digits_aux f (n / 10) acc'
  end.

Definition digits_of (n : Z) : pystr := digits_aux (S (Z.to_nat n)) n [].

(** [str(n)] *)
Definition str_of_int (n : Z) : pystr :=
  if n <? 0 then "-"%char :: digits_of (- n) else digits_of n.

(** [int(s)] for a string of decimal digits. *)
Fixpoint digits_value (acc : Z) (s : pystr) : Z :=
  match s with
  | [] => acc
  | c :: r => digits_value (acc * 10 + (code c - 48)) r
  end.

(** [s.zfill(width)] (CPython [unicode_zfill]): pad with ['0'] on the left
    up to [width], keeping a leading sign in front. *)
Definition zfill (s : pystr) (width : Z) : pystr :=
  if width <=? Z.of_nat (length s) then s
  else
    let fill := repeat "0"%char (Z.to_nat (width - Z.of_nat (length s))) in
    match s with
    | c :: r =>
        if (code c =? 43) || (code c =? 45) then c :: fill ++ r
        else fill ++ s
    | [] => fill
    end.

(** ** [pathlib] name parts (CPython 3.12 [PurePath.suffix] and [stem]) *)

Fixpoint rfind_aux (c : ascii) (s : pystr) (i : nat) (best : option nat)
    : option nat :=
  match s with
  | [] => best
  | x :: r => rfind_aux c r (S i) (if bool_decide (x = c) then Some i else best)
  end.

(** [name.rfind('.')], [None] for -1. *)
Definition rfind_dot (s : pystr) : option nat := rfind_aux "."%char s 0 None.

Definition suffix_index (name : pystr) : option nat :=
  match rfind_dot name with
  | Some i => if (0 <? i)%nat && (i <? length name - 1)%nat then Some i else None
  | None => None
  end.

Definition suffix (name : pystr) : pystr :=
  match suffix_index name with Some i => drop i name | None => [] end.

Definition stem (name : pystr) : pystr :=
  match suffix_index name with Some i => take i name | None => name end.

(** ** Python values used by the program *)

Inductive PyError :=
| ValueError (msg : pystr)
| FileNotFoundError (src dst : pystr)
| JSONDecodeError.

Inductive result (A : Type) :=
| Ok (a : A)
| Err (e : PyError).
Arguments Ok {A} a.
Arguments Err {A} e.

(** A Python [dict] with insertion order: [d[k] = v] updates an existing
    key in place and appends a new one. *)
Fixpoint dict_set {K V} `{EqDecision K} (k : K) (v : V) (d : list (K * V))
    : list (K * V) :=
  match d with
  | [] => [(k, v)]
  | (k', v') :: d' =>
      if decide (k = k') then (k, v) :: d' else (k', v') :: dict_set k v d'
  end.

(** An entry of [Path.iterdir(src)]: its name, whether [p.is_file()],
    and [p.stat().st_mtime] / [st_ctime]. *)
Record FileEntry := mkFile {
  name : pystr;
  is_file : bool;
  mtime : Z;
  ctime : Z
}.

(** ** [utils.py]: validation predicates *)

Definition is_valid_separator (character : pystr) : bool :=
  existsb (str_eqb character) [py "_"; py "-"; py "."].
Definition is_valid_start_index (number_initial : Z) : bool := 0 <? number_initial.
Definition is_valid_padding (number_padding : Z) : bool := 0 <=? number_padding.
Definition is_valid_case (str_case : pystr) : bool :=
  existsb (str_eqb str_case) [py "lower"; py "upper"; py "title"].
Definition is_invalid_keep_no_number_combination (keep no_number : bool) : bool :=
  negb keep && no_number.

(** ** [utils.py]: ordering *)

(** [re.search(r"\d+", s)]: the leftmost maximal run of digits. *)
Fixpoint take_digits (s : pystr) : pystr :=
  match s with
  | c :: r => if is_digit c then c :: take_digits r else []
  | [] => []
  end.

Fixpoint search_digits (s : pystr) : option pystr :=
  match s with
  | [] => None
  | c :: r => if is_digit c then Some (take_digits s) else search_digits r
  end.

Definition extract_embedded_number (path : pystr) : Z :=
  match search_digits (stem path) with
  | Some m => digits_value 0 m
  | None => -1
  end.

(** [sorted(l, key=k)]: a stable sort that only uses [<] on the keys.
    Inserting the head of the input in front of the first element it is
    not greater than keeps equal keys in input order. *)
Section StableSort.
  Context {A : Type} (lt : A -> A -> bool).

Fixpoint insert_sorted (x : A) (l : list A) : list A :=
    match l with
    | [] => [x]
    | y :: l' => if lt y x then y :: insert_sorted x l' else x :: y :: l'
    end.

Fixpoint sort_by (l : list A) : list A :=
    match l with
    | [] => []
    | x :: l' => insert_sorted x (sort_by l')
    end.
End StableSort.

Definition key_lt {B} (key : B -> Z) (x y : B) : bool := key x <? key y.

Definition sort_files (list_files : list FileEntry) (order : pystr)
    : result (list FileEntry) :=
  if str_eqb order (py "name") then
    Ok (sort_by (fun p q => str_lt (name p) (name q)) list_files)
  else if str_eqb order (py "mtime") then Ok (sort_by (key_lt mtime) list_files)
  else if str_eqb order (py "ctime") then Ok (sort_by (key_lt ctime) list_files)
  else if str_eqb order (py "embedded") then
    Ok (sort_by (key_lt (fun p => extract_embedded_number (name p))) list_files)
  else Err (ValueError (py "Unsupported order: " ++ order)).

(** ** [renamer.py]: [buil_rename_plan] *)

Record NamingConfig := mkConfig {
  order : pystr;
  prefix : pystr;
  separator : pystr;
  start : Z;
  padding : Z;
  case : pystr;
  keep : bool;
  no_number : bool
}.

Definition name_parts (cfg : NamingConfig) (item : FileEntry) (index : Z)
    : list pystr :=
  (if str_eqb (prefix cfg) [] then [] else [prefix cfg]) ++
  (if keep cfg then [stem (name item)] else []) ++
  (if no_number cfg then [] else [zfill (str_of_int index) (padding cfg)]).

(** [match(case)]: ["upper"], ["title"], and lower for anything else. *)
Definition apply_case (case_ : pystr) (parts : list pystr) : list pystr :=
  if str_eqb case_ (py "upper") then map py_upper parts
  else if str_eqb case_ (py "title") then map py_title parts
  else map py_lower parts.

Definition new_name (cfg : NamingConfig) (item : FileEntry) (index : Z) : pystr :=
  py_join (separator cfg) (apply_case (case cfg) (name_parts cfg item index)).

(** The loop [for item in ordered_files: ...; index += 1;
    rename_plan[item] = src / f"{new_name}{item.suffix}"]. *)
Fixpoint plan_loop (cfg : NamingConfig) (index : Z) (ordered : list FileEntry)
    (rename_plan : list (pystr * pystr)) : list (pystr * pystr) :=
  match ordered with
  | [] => rename_plan
  | item :: rest =>
      plan_loop cfg (index + 1) rest
        (dict_set (name item) (new_name cfg item index ++ suffix (name item))
           rename_plan)
  end.

(** [src] is [None] when it does not exist or is not a directory, and
    otherwise the listing [Path.iterdir(src)]. *)
Definition buil_rename_plan (src : option (list FileEntry)) (cfg : NamingConfig)
    : result (list (pystr * pystr)) :=
  match src with
  | None => Err (ValueError (py "Source path does not exist or is not a directory."))
  | Some listing =>
      let files := List.filter is_file listing in
      match sort_files files (order cfg) with
      | Err e => Err e
      | Ok ordered_files => Ok (plan_loop cfg (start cfg) ordered_files [])
      end
  end.

(** A configuration that passes every check of the CLI / the docstring. *)
Definition valid_config (cfg : NamingConfig) : bool :=
  existsb (str_eqb (order cfg)) [py "name"; py "mtime"; py "ctime"; py "embedded"] &&
  is_valid_separator (separator cfg) && is_valid_start_index (start cfg) &&
  is_valid_padding (padding cfg) && is_valid_case (case cfg) &&
  negb (is_invalid_keep_no_number_combination (keep cfg) (no_number cfg)).

Definition file (n : String.string) : FileEntry := mkFile (py n) true 0 0.

Definition cfg_keep_only : NamingConfig :=
  mkConfig (py "name") [] (py "_") 1 0 (py "lower") true true.

Definition cfg_base : NamingConfig :=
  mkConfig (py "name") [] (py "_") 1 0 (py "lower") false false.

(** ** [renamer.py]: [rename_run] and [reverse_rename_run] *)

Abbreviation path := pystr.

(** The world the runners act on: the files (path to file identity) and
    the number of [uuid4()] values drawn so far. *)
Record World := mkWorld { files : gmap path Z; drawn : nat }.

(** Statements run in order; a raised exception stops the run and leaves
    the world as it is at that point. *)
Definition IO (A : Type) : Type := World -> World * result A.

Global Instance io_ret : MRet IO := fun A a w => (w, Ok a).
Global Instance io_bind : MBind IO := fun A B k m w =>
  match m w with
  | (w', Ok a) => k a w'
  | (w', Err e) => (w', Err e)
  end.

(** [Path.rename] on POSIX ([os.rename]): the target is replaced when it
    exists; a missing source raises [FileNotFoundError]. *)
Definition posix_rename (fs : gmap path Z) (src dst : path) : result (gmap path Z) :=
  match fs !! src with
  | None => Err (FileNotFoundError src dst)
  | Some f => Ok (<[dst := f]> (delete src fs))
  end.

(** The temporary sibling [old.with_name(f"{old.name}.{hex}.tmp")]. *)
Definition temp_name (old : path) (hex : pystr) : path :=
  old ++ py "." ++ hex ++ py ".tmp".

Section Runner.
  (** The rename primitive of the platform and the [uuid4().hex] supply. *)
  Variable os_rename : gmap path Z -> path -> path -> result (gmap path Z).
  Variable uuid_hex : nat -> pystr.

Definition rename (src dst : path) : IO unit := fun w =>
    match os_rename (files w) src dst with
    | Ok fs => (mkWorld fs (drawn w), Ok tt)
    | Err e => (w, Err e)
    end.

Definition uuid4_hex : IO pystr := fun w =>
    (mkWorld (files w) (S (drawn w)), Ok (uuid_hex (drawn w))).

  (** First loop of [rename_run]. *)
Fixpoint stage (plan temp_map : list (path * path)) : IO (list (path * path)) :=
    match plan with
    | [] => mret temp_map
    | (old, new) :: rest =>
        hex ← uuid4_hex;
        let tmp := temp_name old hex in
        rename old tmp;;
        stage rest (dict_set tmp new temp_map)
    end.

  (** Second loop of [rename_run] and of [reverse_rename_run]. *)
Fixpoint commit (temp_map : list (path * path)) : IO unit :=
    match temp_map with
    | [] => mret tt
    | (old, new) :: rest => rename old new;; commit rest
    end.

Definition rename_run (plan : list (path * path)) : IO unit :=
    temp_map ← stage plan []; commit temp_map.

  (** First loop of [reverse_rename_run]: [new -> temp], recording
      [temp -> old]. *)
Fixpoint reverse_stage (plan temp_map : list (path * path))
      : IO (list (path * path)) :=
    match plan with
    | [] => mret temp_map
    | (old, new) :: rest =>
        hex ← uuid4_hex;
        let tmp := temp_name new hex in
        rename new tmp;;
        reverse_stage rest (dict_set tmp old temp_map)
    end.

Definition reverse_rename_run (plan : list (path * path)) : IO unit :=
    temp_map ← reverse_stage plan []; commit temp_map.
End Runner.

Definition hex_supply (n : nat) : pystr := py "0123456789abcdef0123456789abcde" ++ [chr (48 + Z.of_nat n)].

Definition swap_dir : World :=
  mkWorld (<[py "a.txt" := 1]> (<[py "b.txt" := 2]> ∅)) 0.

(** ** [utils.py]: [save_rename_plan_json], and the loading in [cli.py] *)

Definition dquote : ascii := ascii_of_nat 34.
Definition bslash : ascii := ascii_of_nat 92.
Definition slash : ascii := ascii_of_nat 47.

Definition hex_digit (n : Z) : ascii := if n <? 10 then chr (48 + n) else chr (87 + n).

(** [encode_basestring_ascii] on one character: printable ASCII other than
    the quote and the backslash is kept, the rest escaped ([\uXXXX] in
    lower-case hexadecimal). *)
Definition json_escape_char (c : ascii) : list ascii :=
  let n := code c in
  if n =? 34 then [bslash; dquote]
  else if n =? 92 then [bslash; bslash]
  else if n =? 8 then [bslash; "b"%char]
  else if n =? 12 then [bslash; "f"%char]
  else if n =? 10 then [bslash; "n"%char]
  else if n =? 13 then [bslash; "r"%char]
  else if n =? 9 then [bslash; "t"%char]
  else if (32 <=? n) && (n <=? 126) then [c]
  else [bslash; "u"%char; "0"%char; "0"%char; hex_digit (n / 16); hex_digit (n mod 16)].

Definition json_encode_string (s : pystr) : list ascii :=
  dquote :: flat_map json_escape_char s ++ [dquote].

Definition json_item (kv : pystr * pystr) : list ascii :=
  json_encode_string (fst kv) ++ py ": " ++ json_encode_string (snd kv).

Definition newline_indent : list ascii := py "
  ".

(** [json.dump(d, f, indent=2)] for a dict of strings. *)
Definition json_dump (d : list (pystr * pystr)) : list ascii :=
  match d with
  | [] => py "{}"
  | _ => "{"%char :: newline_indent ++ py_join (py "," ++ newline_indent) (map json_item d)
           ++ py "
}"
  end.

(** A dict comprehension [{k: v for k, v in items}]. *)
Fixpoint dict_build (items acc : list (pystr * pystr)) : list (pystr * pystr) :=
  match items with
  | [] => acc
  | (k, v) :: rest => dict_build rest (dict_set k v acc)
  end.

(** [save_rename_plan_json]: the text written to the backup file; a path is
    represented by its string, so [str(k)] is [k]. *)
Definition save_rename_plan_json (rename_plan : list (pystr * pystr)) : list ascii :=
  json_dump (dict_build rename_plan []).

(** The JSON decoder ([json.load]) on an object whose values are strings. *)
Definition is_ws (c : ascii) : bool :=
  (code c =? 32) || (code c =? 9) || (code c =? 10) || (code c =? 13).

Fixpoint skip_ws (s : list ascii) : list ascii :=
  match s with
  | c :: r => if is_ws c then skip_ws r else s
  | [] => []
  end.

Definition hex_value (c : ascii) : option Z :=
  let n := code c in
  if (48 <=? n) && (n <=? 57) then Some (n - 48)
  else if (97 <=? n) && (n <=? 102) then Some (n - 87)
  else if (65 <=? n) && (n <=? 70) then Some (n - 55)
  else None.

Definition hex4 (a b c d : ascii) : option Z :=
  match hex_value a, hex_value b, hex_value c, hex_value d with
  | Some w, Some x, Some y, Some z => Some (((w * 16 + x) * 16 + y) * 16 + z)
  | _, _, _, _ => None
  end.

Definition simple_escape (e : ascii) : option ascii :=
  let n := code e in
  if n =? 34 then Some dquote
  else if n =? 92 then Some bslash
  else if n =? 47 then Some slash
  else if n =? 98 then Some (chr 8)
  else if n =? 102 then Some (chr 12)
  else if n =? 110 then Some (chr 10)
  else if n =? 114 then Some (chr 13)
  else if n =? 116 then Some (chr 9)
  else None.

Definition cons_res (c : ascii) (r : result (pystr * list ascii)) : result (pystr * list ascii) :=
  match r with
  | Ok (x, rest) => Ok (c :: x, rest)
  | Err e => Err e
  end.

(** [scanstring] (strict): the body of a string literal up to its closing
    quote. Characters are bytes here, so a [\uXXXX] escape above 255
    is outside the model and reported as an error. *)
Fixpoint scan_string (s : list ascii) : result (pystr * list ascii) :=
  match s with
  | [] => Err JSONDecodeError
  | c :: r =>
      if code c =? 34 then Ok ([], r)
      else if code c =? 92 then
        match r with
        | e :: r' =>
            if code e =? 117 then
              match r' with
              | h1 :: h2 :: h3 :: h4 :: r'' =>
                  match hex4 h1 h2 h3 h4 with
                  | Some n => if n <? 256 then cons_res (chr n) (scan_string r'')
                              else Err JSONDecodeError
                  | None => Err JSONDecodeError
                  end
              | _ => Err JSONDecodeError
              end
            else
              match simple_escape e with
              | Some c' => cons_res c' (scan_string r')
              | None => Err JSONDecodeError
              end
        | [] => Err JSONDecodeError
        end
      else if code c <? 32 then Err JSONDecodeError
      else cons_res c (scan_string r)
  end.

(** [JSONObject] after its [{]: members [key: value] separated by [,],
    duplicate keys kept at their first place with their last value. *)
Fixpoint parse_members (fuel : nat) (s : list ascii) (acc : list (pystr * pystr))
    : result (list (pystr * pystr) * list ascii) :=
  match fuel with
  | O => Err JSONDecodeError
  | S f =>
      match skip_ws s with
      | c :: r =>
          if code c =? 34 then
            match scan_string r with
            | Ok (k, r1) =>
                match skip_ws r1 with
                | c1 :: r2 =>
                    if code c1 =? 58 then
                      match skip_ws r2 with
                      | c2 :: r3 =>
                          if code c2 =? 34 then
                            match scan_string r3 with
                            | Ok (v, r4) =>
                                let acc' := dict_set k v acc in
                                match skip_ws r4 with
                                | c3 :: r5 =>
                                    if code c3 =? 44 then parse_members f r5 acc'
                                    else if code c3 =? 125 then Ok (acc', r5)
                                    else Err JSONDecodeError
                                | [] => Err JSONDecodeError
                                end
                            | Err e => Err e
                            end
                          else Err JSONDecodeError
                      | [] => Err JSONDecodeError
                      end
                    else Err JSONDecodeError
                | [] => Err JSONDecodeError
                end
            | Err e => Err e
            end
          else Err JSONDecodeError
      | [] => Err JSONDecodeError
      end
  end.

Definition parse_object (s : list ascii) : result (list (pystr * pystr) * list ascii) :=
  match skip_ws s with
  | c :: r =>
      if code c =? 123 then
        match skip_ws r with
        | c' :: r' => if code c' =? 125 then Ok ([], r') else parse_members (length r) r []
        | [] => Err JSONDecodeError
        end
      else Err JSONDecodeError
  | [] => Err JSONDecodeError
  end.

(** [json.load]: the object, then nothing but whitespace. *)
Definition json_loads (s : list ascii) : result (list (pystr * pystr)) :=
  match parse_object s with
  | Ok (d, rest) => if bool_decide (skip_ws rest = []) then Ok d else Err JSONDecodeError
  | Err e => Err e
  end.

(** [str(Path(s))] on POSIX (CPython 3.12 [_parse_path], [splitroot] and
    [_format_parsed_parts]): the root ([/], or [//] exactly), then the
    non-empty components other than [.] joined by [/], or ["."]. *)
Definition is_slash (c : ascii) : bool := code c =? 47.

Definition splitroot (p : pystr) : pystr * pystr :=
  match p with
  | c :: r =>
      if is_slash c then
        match r with
        | c2 :: r2 =>
            if is_slash c2 then
              match r2 with
              | c3 :: _ => if is_slash c3 then ([slash], r) else ([slash; slash], r2)
              | [] => ([slash; slash], r2)
              end
            else ([slash], r)
        | [] => ([slash], r)
        end
      else ([], p)
  | [] => ([], [])
  end.

(** [s.split('/')] *)
Fixpoint split_slash (s : pystr) : list pystr :=
  match s with
  | [] => [[]]
  | c :: r =>
      let parts := split_slash r in
      if is_slash c then [] :: parts
      else match parts with
           | p :: ps => (c :: p) :: ps
           | [] => [[c]]
           end
  end.

Definition keep_part (x : pystr) : bool := negb (str_eqb x []) && negb (str_eqb x (py ".")).

Definition path_str (p : pystr) : pystr :=
  let (root, rel) := splitroot p in
  let s := root ++ py_join [slash] (List.filter keep_part (split_slash rel)) in
  if str_eqb s [] then py "." else s.

(** [cli.py]: [data = json.load(f)], then
    [{Path(old): Path(new) for old, new in data.items()}]. *)
Definition load_rename_plan (text : list ascii) : result (list (pystr * pystr)) :=
  match json_loads text with
  | Ok data => Ok (dict_build (map (fun kv => (path_str (fst kv), path_str (snd kv))) data) [])
  | Err e => Err e
  end.

(** The components of a path string. *)
Definition path_parts (rel : pystr) : list pystr := List.filter keep_part (split_slash rel).

(** ** [cli.py]: [cli_run] after its option checks

    The import list of [cli.py] names [is_valid_order], [is_valid_prefix],
    [is_invalid_dry_run_reverse_run_combination] and
    [is_invalid_run_reverse_with_extra_option], which [utils.py] does not
    define; the part modelled here is the code that follows the checks. *)

(** [PurePath.name] (CPython 3.12): the last component of the path, ['']
    when there is none. *)
Definition path_name (p : pystr) : pystr :=
  match last (path_parts (snd (splitroot p))) with Some x => x | None => [] end.

(** The state [cli_run] acts on: the files and the [uuid4()] counter of the
    runners, the text of [rename_plan_backup.json] in the backup folder
    ([None] while it does not exist), and the lines printed. *)
Record CliState := mkCli {
  cli_world : World;
  backup : option (list ascii);
  printed : list pystr
}.

Definition CliIO (A : Type) : Type := CliState -> CliState * result A.

Global Instance cli_ret : MRet CliIO := fun A a s => (s, Ok a).
Global Instance cli_bind : MBind CliIO := fun A B k m s =>
  match m s with
  | (s', Ok a) => k a s'
  | (s', Err e) => (s', Err e)
  end.

Definition raise {A} (e : PyError) : CliIO A := fun s => (s, Err e).

(** A runner of [renamer.py], acting on the files. *)
Definition on_files {A} (m : IO A) : CliIO A := fun s =>
  let (w', r) := m (cli_world s) in (mkCli w' (backup s) (printed s), r).

(** [dry_run_cli]: one line [f"{old.name} -> {new.name}"] per entry. *)
Definition dry_run_cli (plan : list (path * path)) : CliIO unit := fun s =>
  (mkCli (cli_world s) (backup s)
     (printed s ++ map (fun kv => path_name (fst kv) ++ py " -> " ++ path_name (snd kv)) plan),
   Ok tt).

Definition backup_file : pystr := py "rename_plan_backup.json".

(** [with open(path_json_backup, "r") as f]: a missing file raises
    [FileNotFoundError] (for [open] the second field, a rename target, is
    empty). *)
Definition read_backup : CliIO (list ascii) := fun s =>
  match backup s with
  | Some text => (s, Ok text)
  | None => (s, Err (FileNotFoundError backup_file []))
  end.

(** [save_rename_plan_json(plan, path_json_backup)]: the file is replaced. *)
Definition write_backup (text : list ascii) : CliIO unit := fun s =>
  (mkCli (cli_world s) (Some text) (printed s), Ok tt).

Section Cli.
  Variable os_rename : gmap path Z -> path -> path -> result (gmap path Z).
  Variable uuid_hex : nat -> pystr.

(** From [plan_renamer = buil_rename_plan(args.folder, ...)] on: the plan
    (or the exception the builder raised), then the three modes.  The
    folder of [get_backup_folder()] is created when missing and is not
    otherwise observed. *)
Definition cli_run_tail (plan_renamer : result (list (path * path)))
    (dry_run reverse_run : bool) : CliIO unit :=
  match plan_renamer with
  | Err e => raise e
  | Ok plan =>
      if dry_run then dry_run_cli plan
      else if reverse_run then
        text ← read_backup;
        match json_loads text with
        | Err e => raise e
        | Ok data =>
            let plan_backup :=
              dict_build (map (fun kv => (path_str (fst kv), path_str (snd kv))) data) [] in
            let plan_backup_anterior :=
              dict_build (map (fun kv => (path_str (snd kv), path_str (fst kv))) data) [] in
            on_files (reverse_rename_run os_rename uuid_hex plan_backup);;
            write_backup (save_rename_plan_json plan_backup_anterior)
        end
      else
        on_files (rename_run os_rename uuid_hex plan);;
        write_backup (save_rename_plan_json plan)
  end.
End Cli.

(** ** Auxiliary definitions of the proofs: the runners *)

Global Instance In_decision {A} `{EqDecision A} (x : A) (l : list A) : Decision (In x l) :=
  in_dec (fun a b => decide (a = b)) x l.

(** The file system after the successful renames [s -> d] of [ps], one
    after the other. *)
Fixpoint seq_rename (fs : gmap path Z) (ps : list (path * path)) : gmap path Z :=
  match ps with
  | [] => fs
  | (s, d) :: r =>
      seq_rename (match fs !! s with
                  | Some f => <[d := f]> (delete s fs)
                  | None => fs
                  end) r
  end.

(** The temporary names drawn by the first loop, from counter [d] on. *)
Fixpoint temps_of (u : nat -> pystr) (d : nat) (plan : list (path * path)) : list path :=
  match plan with
  | [] => []
  | (k, _) :: r => temp_name k (u d) :: temps_of u (S d) r
  end.

Fixpoint stage_moves (u : nat -> pystr) (d : nat) (plan : list (path * path))
    : list (path * path) :=
  match plan with
  | [] => []
  | (k, _) :: r => (k, temp_name k (u d)) :: stage_moves u (S d) r
  end.

Fixpoint commit_moves (u : nat -> pystr) (d : nat) (plan : list (path * path))
    : list (path * path) :=
  match plan with
  | [] => []
  | (k, v) :: r => (temp_name k (u d), v) :: commit_moves u (S d) r
  end.

Definition swap_pair {A B} (p : A * B) : B * A := (snd p, fst p).

(** A rename primitive that, when it succeeds, moves the file of [s] to
    [d]; it may fail for any reason (missing file, permission, ...). *)
Definition moves_like_posix
    (rn : gmap path Z -> path -> path -> result (gmap path Z)) : Prop :=
  forall fs s d fs', rn fs s d = Ok fs' ->
    exists f, fs !! s = Some f /\ fs' = <[d := f]> (delete s fs).

Ltac decide_it := apply (bool_decide_unpack _); vm_compute; reflexivity.

Ltac fresh_it :=
  let t := fresh "t" in let Ht := fresh "Ht" in
  intros t Ht; vm_compute in Ht;
  repeat (destruct Ht as [<-|Ht]; [split; vm_compute; intuition discriminate|]);
  contradiction.

Definition swap_plan : list (path * path) := [(py "a.txt", py "b.txt"); (py "b.txt", py "a.txt")].

(** ** Auxiliary definitions of the proofs: the builder *)

Definition case_fn (case_ : pystr) : pystr -> pystr :=
  if str_eqb case_ (py "upper") then py_upper
  else if str_eqb case_ (py "title") then py_title
  else py_lower.

(** What precedes the index in a numbered name without the stem: the
    case-transformed prefix and the separator, when there is a prefix. *)
Definition name_head (cfg : NamingConfig) : pystr :=
  if str_eqb (prefix cfg) [] then [] else case_fn (case cfg) (prefix cfg) ++ separator cfg.

Definition head_not_digit (s : pystr) : Prop :=
  match s with [] => True | c :: _ => is_digit c = false end.

(** The entries the loop adds, in order: [(item, target)] for
    consecutive indices. *)
Fixpoint plan_entries (cfg : NamingConfig) (index : Z) (ordered : list FileEntry)
    : list (pystr * pystr) :=
  match ordered with
  | [] => []
  | item :: rest =>
      (name item, new_name cfg item index ++ suffix (name item))
        :: plan_entries cfg (index + 1) rest
  end.

(** ** Configurations of the examples *)

Definition cfg_invalid : NamingConfig :=
  mkConfig (py "name") [] (py " ") 0 (-1) (py "original") false true.

Definition cfg_start_zero : NamingConfig :=
  mkConfig (py "name") [] (py "_") 0 0 (py "lower") false false.

Definition with_case (cfg : NamingConfig) (c : pystr) : NamingConfig :=
  mkConfig (order cfg) (prefix cfg) (separator cfg) (start cfg) (padding cfg) c
    (keep cfg) (no_number cfg).

(** ** The target name as the specification describes it *)

(** The spec's padding: the index in decimal, zero-padded on the left up to
    [width] digits, and the full number when it is already that long. *)
Definition spec_pad (index width : Z) : pystr :=
  let digits := str_of_int index in
  if width <=? Z.of_nat (length digits) then digits
  else repeat "0"%char (Z.to_nat (width - Z.of_nat (length digits))) ++ digits.

(** The spec's case transforms: ["lower"], ["upper"] and ["title"]. *)
Definition spec_case (c : pystr) (s : pystr) : pystr :=
  if str_eqb c (py "lower") then py_lower s
  else if str_eqb c (py "upper") then py_upper s
  else if str_eqb c (py "title") then py_title s
  else s.

Definition spec_components (cfg : NamingConfig) (item : FileEntry) (index : Z)
    : list pystr :=
  (if str_eqb (prefix cfg) [] then [] else [prefix cfg]) ++
  (if keep cfg then [stem (name item)] else []) ++
  (if no_number cfg then [] else [spec_pad index (padding cfg)]).

Definition spec_target (cfg : NamingConfig) (item : FileEntry) (index : Z) : pystr :=
  py_join (separator cfg) (map (spec_case (case cfg)) (spec_components cfg item index))
    ++ suffix (name item).

(** The spec's plan: the ordered files with consecutive indices. *)
Fixpoint spec_plan (cfg : NamingConfig) (index : Z) (ordered : list FileEntry)
    : list (pystr * pystr) :=
  match ordered with
  | [] => []
  | item :: rest => (name item, spec_target cfg item index) :: spec_plan cfg (index + 1) rest
  end.

Definition cfg_photos : NamingConfig :=
  mkConfig (py "name") (py "img") (py "_") 1 2 (py "upper") false false.

Definition photos : list FileEntry :=
  [file "photo2.jpg"; file "photo10.jpg"; file "photo1.jpg"].

Definition emb (f : FileEntry) : Z := extract_embedded_number (name f).

Definition cfg_keep_num : NamingConfig :=
  mkConfig (py "name") [] (py "_") 1 0 (py "lower") true false.

(** The targets of a numbered run without the stem, when every file has
    the extension [ext]. *)
Fixpoint targets_from (cfg : NamingConfig) (ext : pystr) (index : Z) (n : nat) : list pystr :=
  match n with
  | O => []
  | S n' => (name_head cfg ++ zfill (str_of_int index) (padding cfg) ++ ext)
              :: targets_from cfg ext (index + 1) n'
  end.

(** ** Auxiliary definitions of the proofs: further properties *)


(** The comparison of [sorted(list_files, key=lambda p: p.name)]. *)
Definition name_lt (p q : FileEntry) : bool := str_lt (name p) (name q).

(** The characters [json.dump] may write: printable ASCII and the newline
    of the indentation. *)
Definition json_safe (c : ascii) : bool :=
  ((32 <=? code c) && (code c <=? 126)) || (code c =? 10).

(** A plan of path strings, each one as [str(Path(.))] gives it. *)
Definition path_fixed (plan : list (path * path)) : Prop :=
  Forall (fun kv => path_str (fst kv) = fst kv /\ path_str (snd kv) = snd kv) plan.



Definition collide_plan : list (path * path) :=
  [(py "a.txt", py "c.txt"); (py "b.txt", py "c.txt")].

Definition mixed_listing : list FileEntry :=
  [file "b.txt"; mkFile (py "sub") false 0 0; file "a.txt"].

(** * Proofs *)

(** ** Examples *)

Example ex_title : py_title (py "hello wORLD_x1y") = py "Hello World_X1Y".
Proof. vm_compute. reflexivity. Qed.

Example ex_zfill : zfill (str_of_int (-1)) 3 = py "-01" /\ zfill (str_of_int 123) 2 = py "123".
Proof. vm_compute. split; reflexivity. Qed.

Example ex_suffix : suffix (py "a.tar.gz") = py ".gz" /\ stem (py ".bashrc") = py ".bashrc"
  /\ suffix (py "x.") = [].
Proof. vm_compute. repeat split. Qed.

Example ex_swap :
  let (w, r) := rename_run posix_rename hex_supply
                  [(py "a.txt", py "b.txt"); (py "b.txt", py "a.txt")] swap_dir in
  r = Ok tt /\ files w = <[py "a.txt" := 2]> (<[py "b.txt" := 1]> ∅).
Proof. vm_compute. split; reflexivity. Qed.

(** ** Runner facts *)

Lemma stage_moves_fst u d plan : map fst (stage_moves u d plan) = map fst plan.
Proof. revert d; induction plan as [|[k v] r IH]; intros d; simpl; f_equal; auto. Qed.

Lemma stage_moves_snd u d plan : map snd (stage_moves u d plan) = temps_of u d plan.
Proof. revert d; induction plan as [|[k v] r IH]; intros d; simpl; f_equal; auto. Qed.

Lemma commit_moves_fst u d plan : map fst (commit_moves u d plan) = temps_of u d plan.
Proof. revert d; induction plan as [|[k v] r IH]; intros d; simpl; f_equal; auto. Qed.

Lemma commit_moves_snd u d plan : map snd (commit_moves u d plan) = map snd plan.
Proof. revert d; induction plan as [|[k v] r IH]; intros d; simpl; f_equal; auto. Qed.

Lemma temps_of_length u d plan : length (temps_of u d plan) = length plan.
Proof. revert d; induction plan as [|[k v] r IH]; intros d; simpl; f_equal; auto. Qed.

(** A path that is no target: gone if it was a source, untouched otherwise. *)
Lemma seq_rename_other fs ps x :
  ~ In x (map snd ps) ->
  seq_rename fs ps !! x = if decide (In x (map fst ps)) then None else fs !! x.
Proof.
  revert fs; induction ps as [|[s d] r IH]; intros fs Hx; simpl in *.
  - reflexivity.
  - rewrite IH by tauto.
    destruct (decide (In x (map fst r))) as [Hin|Hin];
      destruct (decide (s = x \/ In x (map fst r))) as [Hs|Hs]; try tauto.
    destruct (fs !! s) as [f|] eqn:Hf.
    + rewrite lookup_insert_ne by (intros ->; tauto).
      destruct Hs as [->|]; [|tauto]. apply lookup_delete_eq.
    + destruct Hs as [->|]; [exact Hf|tauto].
    + destruct (fs !! s) as [f|] eqn:Hf; [|reflexivity].
      rewrite lookup_insert_ne by (intros ->; tauto).
      apply lookup_delete_ne. intros ->; tauto.
Qed.

(** Renames whose sources are distinct and present and whose targets are
    distinct and no source act as one parallel move. *)
Lemma seq_rename_dst fs ps s d :
  NoDup (map fst ps) -> NoDup (map snd ps) ->
  (forall x, In x (map snd ps) -> ~ In x (map fst ps)) ->
  (forall x, In x (map fst ps) -> is_Some (fs !! x)) ->
  In (s, d) ps -> seq_rename fs ps !! d = fs !! s.
Proof.
  revert fs; induction ps as [|[s0 d0] r IH]; intros fs Hs Hd Hdis Hpres Hin;
    simpl in *; [contradiction|].
  inversion Hs as [|? ? Hs0 Hs']; subst. inversion Hd as [|? ? Hd0 Hd']; subst.
  rewrite list_elem_of_In in Hs0, Hd0.
  destruct (Hpres s0 (or_introl eq_refl)) as [f Hf]. rewrite Hf.
  destruct Hin as [Heq|Hin].
  - injection Heq as Hs1 Hd1; subst s d.
    rewrite seq_rename_other by exact Hd0.
    destruct (decide (In d0 (map fst r))) as [Hr|Hr].
    + exfalso. apply (Hdis d0); auto.
    + rewrite lookup_insert_eq. symmetry. exact Hf.
  - assert (Hsr : In s (map fst r)) by (apply (in_map fst) in Hin; exact Hin).
    assert (Hdr : In d (map snd r)) by (apply (in_map snd) in Hin; exact Hin).
    rewrite (IH _ Hs' Hd').
    + rewrite lookup_insert_ne.
      * apply lookup_delete_ne. intros ->. contradiction.
      * intros E. apply (Hdis d0); [auto|]. rewrite E. auto.
    + intros x Hx Hx'. apply (Hdis x); auto.
    + intros x Hx. rewrite lookup_insert_is_Some. right. split.
      * intros E. apply (Hdis d0); [auto|]. rewrite E. auto.
      * rewrite lookup_delete_is_Some. split; [intros ->; contradiction|auto].
    + exact Hin.
Qed.

Lemma dict_set_new {K V} `{EqDecision K} (k : K) (v : V) d :
  ~ In k (map fst d) -> dict_set k v d = d ++ [(k, v)].
Proof.
  induction d as [|[k' v'] d IH]; intros Hk; simpl in *; [reflexivity|].
  destruct (decide (k = k')) as [->|Hne]; [tauto|]. rewrite IH by tauto. reflexivity.
Qed.

Lemma stage_cons rn u k v r tm w :
  stage rn u ((k, v) :: r) tm w =
    let tmp := temp_name k (u (drawn w)) in
    match rename rn k tmp (mkWorld (files w) (S (drawn w))) with
    | (w2, Ok _) => stage rn u r (dict_set tmp v tm) w2
    | (w2, Err e) => (w2, Err e)
    end.
Proof. reflexivity. Qed.

Lemma reverse_stage_cons rn u k v r tm w :
  reverse_stage rn u ((k, v) :: r) tm w =
    let tmp := temp_name v (u (drawn w)) in
    match rename rn v tmp (mkWorld (files w) (S (drawn w))) with
    | (w2, Ok _) => reverse_stage rn u r (dict_set tmp k tm) w2
    | (w2, Err e) => (w2, Err e)
    end.
Proof. reflexivity. Qed.

Lemma commit_cons rn s d r w :
  commit rn ((s, d) :: r) w =
    match rename rn s d w with
    | (w2, Ok _) => commit rn r w2
    | (w2, Err e) => (w2, Err e)
    end.
Proof. reflexivity. Qed.

Lemma rename_posix_ok w s d f :
  files w !! s = Some f ->
  rename posix_rename s d w = (mkWorld (<[d := f]> (delete s (files w))) (drawn w), Ok tt).
Proof. intros H. unfold rename, posix_rename. rewrite H. reflexivity. Qed.

Lemma stage_posix u plan tm w :
  NoDup (map fst plan) ->
  (forall k, In k (map fst plan) -> is_Some (files w !! k)) ->
  NoDup (temps_of u (drawn w) plan) ->
  (forall t, In t (temps_of u (drawn w) plan) -> ~ In t (map fst tm)) ->
  stage posix_rename u plan tm w =
    (mkWorld (seq_rename (files w) (stage_moves u (drawn w) plan))
             (drawn w + length plan)%nat,
     Ok (tm ++ commit_moves u (drawn w) plan)).
Proof.
  revert tm w; induction plan as [|[k v] r IH]; intros tm w Hk Hpres Ht Htm.
  - destruct w; simpl. rewrite app_nil_r, Nat.add_0_r. reflexivity.
  - simpl in Hk, Ht. inversion Hk as [|? ? Hk0 Hk']; subst.
    inversion Ht as [|? ? Ht0 Ht']; subst.
    rewrite list_elem_of_In in Hk0, Ht0.
    destruct (Hpres k (or_introl eq_refl)) as [f Hf].
    rewrite stage_cons. simpl.
    rewrite (rename_posix_ok _ _ _ f) by exact Hf.
    rewrite dict_set_new by (apply Htm; simpl; auto).
    rewrite IH; simpl.
    + rewrite Hf, <- app_assoc. simpl. do 2 f_equal. lia.
    + exact Hk'.
    + intros x Hx. rewrite lookup_insert_is_Some.
      destruct (decide (temp_name k (u (drawn w)) = x)) as [|Hne]; [left; exact e|].
      right. split; [exact Hne|].
      rewrite lookup_delete_is_Some. split; [intros <-; contradiction|].
      apply Hpres. simpl. auto.
    + exact Ht'.
    + intros t Ht1. rewrite map_app, in_app_iff. simpl. intros [H|[H|H]].
      * apply (Htm t); [simpl; auto|exact H].
      * subst. contradiction.
      * exact H.
Qed.

Lemma commit_posix ps w :
  NoDup (map fst ps) ->
  (forall s, In s (map fst ps) -> is_Some (files w !! s)) ->
  commit posix_rename ps w = (mkWorld (seq_rename (files w) ps) (drawn w), Ok tt).
Proof.
  revert w; induction ps as [|[s d] r IH]; intros w Hs Hpres.
  - destruct w; reflexivity.
  - simpl in Hs. inversion Hs as [|? ? Hs0 Hs']; subst.
    rewrite list_elem_of_In in Hs0.
    destruct (Hpres s (or_introl eq_refl)) as [f Hf].
    rewrite commit_cons, (rename_posix_ok _ _ _ f) by exact Hf.
    rewrite IH; simpl.
    + rewrite Hf. reflexivity.
    + exact Hs'.
    + intros x Hx. rewrite lookup_insert_is_Some.
      destruct (decide (d = x)) as [|Hne]; [left; exact e|].
      right. split; [exact Hne|].
      rewrite lookup_delete_is_Some. split; [intros <-; contradiction|].
      apply Hpres. simpl. auto.
Qed.

Lemma in_map_fst_pair {A B} (x : A) (l : list (A * B)) :
  In x (map fst l) -> exists y, In (x, y) l.
Proof.
  intros H. apply in_map_iff in H as [[a b] [Ha Hin]]. simpl in Ha. subst. eauto.
Qed.

Lemma in_map_snd_pair {A B} (y : B) (l : list (A * B)) :
  In y (map snd l) -> exists x, In (x, y) l.
Proof.
  intros H. apply in_map_iff in H as [[a b] [Hb Hin]]. simpl in Hb. subst. eauto.
Qed.

(** A directory holding exactly the sources of a parallel move holds
    exactly its targets afterwards, each with the file of its source. *)
Lemma seq_rename_move fs ps :
  NoDup (map fst ps) -> NoDup (map snd ps) ->
  (forall x, In x (map snd ps) -> ~ In x (map fst ps)) ->
  dom fs = (list_to_set (map fst ps) : gset path) ->
  (forall s d, In (s, d) ps -> seq_rename fs ps !! d = fs !! s) /\
  dom (seq_rename fs ps) = (list_to_set (map snd ps) : gset path).
Proof.
  intros Hs Hd Hdis Hdom.
  assert (Hpres : forall x, In x (map fst ps) -> is_Some (fs !! x)).
  { intros x Hx. apply elem_of_dom. rewrite Hdom, elem_of_list_to_set, list_elem_of_In.
    exact Hx. }
  split.
  - intros s d Hin. apply seq_rename_dst; auto.
  - apply set_eq. intros x. rewrite elem_of_dom, elem_of_list_to_set, list_elem_of_In.
    split.
    + intros Hx. destruct (decide (In x (map snd ps))) as [|Hn]; [assumption|].
      exfalso. rewrite seq_rename_other in Hx by exact Hn.
      destruct (decide (In x (map fst ps))) as [|Hn']; [destruct Hx; discriminate|].
      apply elem_of_dom in Hx. rewrite Hdom, elem_of_list_to_set, list_elem_of_In in Hx.
      contradiction.
    + intros Hx. destruct (in_map_snd_pair _ _ Hx) as [s Hin].
      rewrite (seq_rename_dst fs ps s x); auto.
      apply Hpres. apply (in_map fst) in Hin. exact Hin.
Qed.

Lemma plan_moves u d plan k v :
  In (k, v) plan ->
  exists t, In (k, t) (stage_moves u d plan) /\ In (t, v) (commit_moves u d plan).
Proof.
  revert d; induction plan as [|[k' v'] r IH]; intros d Hin; simpl in *; [contradiction|].
  destruct Hin as [Heq|Hin].
  - injection Heq as -> ->. eauto.
  - destruct (IH (S d) Hin) as [t [H1 H2]]. eauto.
Qed.

(** The two phases of [rename_run] on POSIX, when the drawn temporary
    names are distinct and are neither a source nor a target. *)
Lemma rename_run_posix_spec u plan w :
  let keys := map fst plan in
  let temps := temps_of u (drawn w) plan in
  NoDup keys -> NoDup (map snd plan) ->
  dom (files w) = (list_to_set keys : gset path) ->
  NoDup temps ->
  (forall t, In t temps -> ~ In t keys /\ ~ In t (map snd plan)) ->
  exists w_mid w',
    stage posix_rename u plan [] w = (w_mid, Ok (commit_moves u (drawn w) plan)) /\
    (forall k t, In (k, t) (stage_moves u (drawn w) plan) -> files w_mid !! t = files w !! k) /\
    dom (files w_mid) = (list_to_set temps : gset path) /\
    commit posix_rename (commit_moves u (drawn w) plan) w_mid = (w', Ok tt) /\
    rename_run posix_rename u plan w = (w', Ok tt) /\
    drawn w' = (drawn w + length plan)%nat /\
    (forall k v, In (k, v) plan -> files w' !! v = files w !! k) /\
    dom (files w') = (list_to_set (map snd plan) : gset path).
Proof.
  intros keys temps Hk Hv Hdom Ht Hfresh.
  assert (Hpres : forall x, In x keys -> is_Some (files w !! x)).
  { intros x Hx. apply elem_of_dom. rewrite Hdom, elem_of_list_to_set, list_elem_of_In.
    exact Hx. }
  destruct (seq_rename_move (files w) (stage_moves u (drawn w) plan)) as [Hm1 Hm2].
  { rewrite stage_moves_fst. exact Hk. }
  { rewrite stage_moves_snd. exact Ht. }
  { rewrite stage_moves_snd, stage_moves_fst. intros x Hx. apply Hfresh, Hx. }
  { rewrite stage_moves_fst. exact Hdom. }
  rewrite stage_moves_snd in Hm2.
  set (w_mid := mkWorld (seq_rename (files w) (stage_moves u (drawn w) plan))
                        (drawn w + length plan)%nat).
  destruct (seq_rename_move (files w_mid) (commit_moves u (drawn w) plan)) as [Hc1 Hc2].
  { rewrite commit_moves_fst. exact Ht. }
  { rewrite commit_moves_snd. exact Hv. }
  { rewrite commit_moves_snd, commit_moves_fst. intros x Hx Hx'. apply (Hfresh x Hx'), Hx. }
  { rewrite commit_moves_fst. exact Hm2. }
  rewrite commit_moves_snd in Hc2.
  assert (Hstage : stage posix_rename u plan [] w = (w_mid, Ok (commit_moves u (drawn w) plan))).
  { rewrite stage_posix; auto. }
  assert (Hcommit : commit posix_rename (commit_moves u (drawn w) plan) w_mid =
                    (mkWorld (seq_rename (files w_mid) (commit_moves u (drawn w) plan)) (drawn w_mid), Ok tt)).
  { rewrite commit_posix; [reflexivity| |].
    - rewrite commit_moves_fst. exact Ht.
    - rewrite commit_moves_fst. intros x Hx. apply elem_of_dom.
      change (x ∈ dom (seq_rename (files w) (stage_moves u (drawn w) plan))).
      rewrite Hm2, elem_of_list_to_set, list_elem_of_In. exact Hx. }
  eexists w_mid, _. split; [exact Hstage|]. split; [exact Hm1|]. split; [exact Hm2|].
  split; [exact Hcommit|]. split.
  { unfold rename_run, mbind, io_bind. rewrite Hstage. exact Hcommit. }
  split; [reflexivity|]. split.
  - intros k v Hin.
    change (seq_rename (files w_mid) (commit_moves u (drawn w) plan) !! v = files w !! k).
    destruct (plan_moves u (drawn w) plan k v Hin) as [t [H1 H2]].
    rewrite (Hc1 t v H2). apply Hm1, H1.
  - exact Hc2.
Qed.

Lemma reverse_stage_swap rn u plan tm w :
  reverse_stage rn u plan tm w = stage rn u (map swap_pair plan) tm w.
Proof.
  revert tm w; induction plan as [|[k v] r IH]; intros tm w; [reflexivity|].
  rewrite reverse_stage_cons.
  change (map swap_pair ((k, v) :: r)) with ((v, k) :: map swap_pair r).
  rewrite stage_cons. simpl.
  destruct (rename rn v _ _) as [w2 [[]|e]]; [apply IH|reflexivity].
Qed.

(** [reverse_rename_run] is [rename_run] on the plan with its roles
    swapped. *)
Lemma reverse_rename_run_swap rn u plan w :
  reverse_rename_run rn u plan w = rename_run rn u (map swap_pair plan) w.
Proof.
  unfold reverse_rename_run, rename_run, mbind, io_bind.
  rewrite reverse_stage_swap. reflexivity.
Qed.

Lemma map_fst_swap {A B} (l : list (A * B)) : map fst (map swap_pair l) = map snd l.
Proof. rewrite map_map. reflexivity. Qed.

Lemma map_snd_swap {A B} (l : list (A * B)) : map snd (map swap_pair l) = map fst l.
Proof. rewrite map_map. reflexivity. Qed.

Lemma in_swap {A B} (a : A) (b : B) l : In (a, b) l -> In (b, a) (map swap_pair l).
Proof. intros H. apply (in_map swap_pair) in H. exact H. Qed.

(** C4: for a plan with distinct keys and distinct values, on a directory
    holding exactly its keys, [rename_run] then [reverse_rename_run] with the
    same plan both complete and give back the initial directory: the same
    set of names, each with its own file (fresh temporary names assumed). *)
Theorem forward_then_reverse_restores u plan w :
  let keys := map fst plan in
  let values := map snd plan in
  let temps1 := temps_of u (drawn w) plan in
  let temps2 := temps_of u (drawn w + length plan)%nat (map swap_pair plan) in
  NoDup keys -> NoDup values ->
  dom (files w) = (list_to_set keys : gset path) ->
  NoDup temps1 -> (forall t, In t temps1 -> ~ In t keys /\ ~ In t values) ->
  NoDup temps2 -> (forall t, In t temps2 -> ~ In t keys /\ ~ In t values) ->
  exists w1 w2,
    rename_run posix_rename u plan w = (w1, Ok tt) /\
    reverse_rename_run posix_rename u plan w1 = (w2, Ok tt) /\
    dom (files w2) = dom (files w) /\
    files w2 = files w.
Proof.
  intros keys values temps1 temps2 Hk Hv Hdom Ht1 Hf1 Ht2 Hf2.
  destruct (rename_run_posix_spec u plan w Hk Hv Hdom Ht1 Hf1)
    as (w_mid & w1 & _ & _ & _ & _ & Hrun1 & Hdrawn1 & Hlook1 & Hdom1).
  assert (Hrev := rename_run_posix_spec u (map swap_pair plan) w1).
  rewrite map_fst_swap, map_snd_swap, Hdrawn1 in Hrev.
  destruct (Hrev Hv Hk Hdom1 Ht2) as (w_mid2 & w2 & _ & _ & _ & _ & Hrun2 & _ & Hlook2 & Hdom2).
  { intros t Ht. destruct (Hf2 t Ht). auto. }
  exists w1, w2. split; [exact Hrun1|]. split.
  { rewrite reverse_rename_run_swap. exact Hrun2. }
  assert (Hd : dom (files w2) = dom (files w)) by (rewrite Hdom2, Hdom; reflexivity).
  split; [exact Hd|].
  apply map_eq. intros x.
  destruct (decide (In x keys)) as [Hx|Hx].
  - destruct (in_map_fst_pair x plan Hx) as [v Hin].
    rewrite (Hlook2 v x (in_swap _ _ _ Hin)). apply Hlook1, Hin.
  - assert (Hn : x ∉ dom (files w)).
    { rewrite Hdom, elem_of_list_to_set, list_elem_of_In. exact Hx. }
    assert (Hn2 : x ∉ dom (files w2)) by (rewrite Hd; exact Hn).
    apply not_elem_of_dom in Hn, Hn2. rewrite Hn, Hn2. reflexivity.
Qed.

Lemma posix_moves : moves_like_posix posix_rename.
Proof.
  intros fs s d fs' H. unfold posix_rename in H.
  destruct (fs !! s) as [f|]; [injection H as <-; eauto|discriminate].
Qed.

Lemma stage_app rn u pre rest tm w :
  stage rn u (pre ++ rest) tm w =
    match stage rn u pre tm w with
    | (w1, Ok tm1) => stage rn u rest tm1 w1
    | (w1, Err e) => (w1, Err e)
    end.
Proof.
  revert tm w; induction pre as [|[k v] r IH]; intros tm w; [destruct w; reflexivity|].
  simpl app. rewrite !stage_cons. simpl.
  destruct (rename rn k _ _) as [w2 [[]|e]]; [apply IH|reflexivity].
Qed.

Lemma stage_ok_inv rn u k v r tm w w1 tm1 :
  moves_like_posix rn ->
  stage rn u ((k, v) :: r) tm w = (w1, Ok tm1) ->
  exists f, files w !! k = Some f /\
    stage rn u r (dict_set (temp_name k (u (drawn w))) v tm)
      (mkWorld (<[temp_name k (u (drawn w)) := f]> (delete k (files w))) (S (drawn w)))
    = (w1, Ok tm1).
Proof.
  intros Hrn H. rewrite stage_cons in H. simpl in H. unfold rename in H. simpl in H.
  destruct (rn (files w) k _) as [fs'|e] eqn:E; [|discriminate].
  destruct (Hrn _ _ _ _ E) as [f [Hf ->]]. eauto.
Qed.

(** A successful first loop leaves every path that is neither one of its
    sources nor one of its temporary names alone. *)
Lemma stage_frame rn u plan tm w w1 tm1 x :
  moves_like_posix rn ->
  stage rn u plan tm w = (w1, Ok tm1) ->
  ~ In x (map fst plan) -> ~ In x (temps_of u (drawn w) plan) ->
  files w1 !! x = files w !! x.
Proof.
  revert tm w; induction plan as [|[k v] r IH]; intros tm w Hrn H Hx Ht.
  - simpl in H. injection H as <- _. reflexivity.
  - destruct (stage_ok_inv _ _ _ _ _ _ _ _ _ Hrn H) as [f [Hf H']].
    simpl in Hx, Ht.
    rewrite (IH _ _ Hrn H') by (simpl; tauto). simpl.
    rewrite lookup_insert_ne by tauto. apply lookup_delete_ne. tauto.
Qed.

(** After a successful first loop every source sits under its temporary
    name and its own name is free. *)
Lemma stage_ok_moved rn u plan tm w w1 tm1 :
  moves_like_posix rn ->
  NoDup (map fst plan) -> NoDup (temps_of u (drawn w) plan) ->
  (forall t, In t (temps_of u (drawn w) plan) -> ~ In t (map fst plan)) ->
  stage rn u plan tm w = (w1, Ok tm1) ->
  drawn w1 = (drawn w + length plan)%nat /\
  forall k t, In (k, t) (stage_moves u (drawn w) plan) ->
    files w1 !! t = files w !! k /\ is_Some (files w !! k) /\ files w1 !! k = None.
Proof.
  revert tm w; induction plan as [|[k0 v0] r IH]; intros tm w Hrn Hk Ht Hdis H.
  - simpl in H. injection H as <- _. split; [simpl; lia|]. intros ? ? [].
  - destruct (stage_ok_inv _ _ _ _ _ _ _ _ _ Hrn H) as [f [Hf H']].
    simpl in Hk, Ht, Hdis. inversion Hk as [|? ? Hk0 Hk']; subst.
    inversion Ht as [|? ? Ht0 Ht']; subst. rewrite list_elem_of_In in Hk0, Ht0.
    set (t0 := temp_name k0 (u (drawn w))) in *.
    assert (Ht0k : ~ In t0 (map fst r)) by (intros Hin; apply (Hdis t0); auto).
    assert (Hk0t : k0 <> t0) by (intros E; apply (Hdis t0); auto).
    assert (Hk0t' : ~ In k0 (temps_of u (S (drawn w)) r)).
    { intros Hin. apply (Hdis k0); auto. }
    destruct (IH _ (mkWorld (<[t0:=f]> (delete k0 (files w))) (S (drawn w))) Hrn Hk' Ht' (fun t Hin => fun Hin' => Hdis t (or_intror Hin) (or_intror Hin')) H')
      as [Hdr Hmv].
    split; [simpl in Hdr |- *; lia|].
    intros k t [E|Hin].
    + injection E as <- <-. fold t0.
      rewrite !(stage_frame _ _ _ _ _ _ _ _ Hrn H') by (simpl; auto).
      simpl. rewrite lookup_insert_eq, lookup_insert_ne by (intros E; apply Hk0t; symmetry; exact E).
      rewrite lookup_delete_eq, Hf. eauto.
    + destruct (Hmv k t Hin) as [H1 [H2 H3]]. simpl in H1, H2.
      assert (Hkr : In k (map fst r)).
      { rewrite <- (stage_moves_fst u (S (drawn w))). apply (in_map fst) in Hin. exact Hin. }
      assert (Hkk0 : k0 <> k) by (intros ->; contradiction).
      assert (Htk : t0 <> k) by (intros E; apply Ht0k; rewrite E; exact Hkr).
      rewrite lookup_insert_ne, lookup_delete_ne in H1, H2 by assumption.
      auto.
Qed.

Lemma map_swap_swap {A B} (l : list (A * B)) : map swap_pair (map swap_pair l) = l.
Proof. induction l as [|[a b] l IH]; simpl; [reflexivity|]. rewrite IH. reflexivity. Qed.

(** C7: a rename of the first loop that fails stops the run with that
    rename's error; the files staged before it stay under their temporary
    names, their own names stay free, and nothing else is renamed.  The
    same holds for [reverse_rename_run], whose first loop renames the
    values of its plan. *)
Theorem stage_failure_keeps_temps rn u pre k v post w w1 tm1 e :
  moves_like_posix rn ->
  NoDup (map fst pre) -> NoDup (temps_of u (drawn w) pre) ->
  (forall t, In t (temps_of u (drawn w) pre) -> ~ In t (map fst pre)) ->
  stage rn u pre [] w = (w1, Ok tm1) ->
  rn (files w1) k (temp_name k (u (drawn w1))) = Err e ->
  rename_run rn u (pre ++ (k, v) :: post) w =
    (mkWorld (files w1) (S (drawn w1)), Err e) /\
  reverse_rename_run rn u (map swap_pair (pre ++ (k, v) :: post)) w =
    (mkWorld (files w1) (S (drawn w1)), Err e) /\
  (forall kj tj, In (kj, tj) (stage_moves u (drawn w) pre) ->
     files w1 !! tj = files w !! kj /\ is_Some (files w !! kj) /\ files w1 !! kj = None).
Proof.
  intros Hrn Hk Ht Hdis Hpre He.
  assert (Hrun : rename_run rn u (pre ++ (k, v) :: post) w =
                 (mkWorld (files w1) (S (drawn w1)), Err e)).
  { unfold rename_run, mbind, io_bind. rewrite stage_app, Hpre, stage_cons. simpl.
    unfold rename. simpl. rewrite He. reflexivity. }
  split; [exact Hrun|]. split.
  - rewrite reverse_rename_run_swap, map_swap_swap. exact Hrun.
  - destruct (stage_ok_moved _ _ _ _ _ _ _ Hrn Hk Ht Hdis Hpre) as [_ Hmv]. exact Hmv.
Qed.

Lemma stage_failure_keeps_temps_witness :
  let w := mkWorld (<[py "a.txt" := 1]> ∅) 0 in
  rename_run posix_rename hex_supply [(py "a.txt", py "b.txt"); (py "b.txt", py "a.txt")] w =
    (mkWorld (<[temp_name (py "a.txt") (hex_supply 0) := 1]> ∅) 2,
     Err (FileNotFoundError (py "b.txt") (temp_name (py "b.txt") (hex_supply 1)))).
Proof.
  intros w.
  destruct (stage_failure_keeps_temps posix_rename hex_supply [(py "a.txt", py "b.txt")]
              (py "b.txt") (py "a.txt") [] w
              (mkWorld (<[temp_name (py "a.txt") (hex_supply 0) := 1]> ∅) 1)
              [(temp_name (py "a.txt") (hex_supply 0), py "b.txt")]
              (FileNotFoundError (py "b.txt") (temp_name (py "b.txt") (hex_supply 1))))
    as [H _].
  - exact posix_moves.
  - vm_compute. constructor; [intros Hin; inversion Hin|constructor].
  - vm_compute. constructor; [intros Hin; inversion Hin|constructor].
  - intros t Ht. vm_compute in Ht. destruct Ht as [<-|[]]. vm_compute.
    intros [E|[]]. discriminate E.
  - vm_compute. reflexivity.
  - vm_compute. reflexivity.
  - exact H.
Defined.

(** C3: [rename_run] first moves every source to its own fresh temporary
    sibling, then every temporary file to its target; on a directory that
    holds exactly the sources it completes and leaves exactly the targets,
    each holding the file of its source, whatever the overlap of the two
    name sets.  On the swap [a.txt -> b.txt, b.txt -> a.txt] the two files
    trade names. *)
Theorem rename_run_overlap_safe u plan w :
  let keys := map fst plan in
  let temps := temps_of u (drawn w) plan in
  NoDup keys -> NoDup (map snd plan) ->
  dom (files w) = (list_to_set keys : gset path) ->
  NoDup temps ->
  (forall t, In t temps -> ~ In t keys /\ ~ In t (map snd plan)) ->
  (exists w_mid w',
    stage posix_rename u plan [] w = (w_mid, Ok (commit_moves u (drawn w) plan)) /\
    (forall k t, In (k, t) (stage_moves u (drawn w) plan) -> files w_mid !! t = files w !! k) /\
    dom (files w_mid) = (list_to_set temps : gset path) /\
    commit posix_rename (commit_moves u (drawn w) plan) w_mid = (w', Ok tt) /\
    rename_run posix_rename u plan w = (w', Ok tt) /\
    (forall k v, In (k, v) plan -> files w' !! v = files w !! k) /\
    dom (files w') = (list_to_set (map snd plan) : gset path)) /\
  (let (w', r) := rename_run posix_rename hex_supply swap_plan swap_dir in
   r = Ok tt /\ files w' = <[py "a.txt" := 2]> (<[py "b.txt" := 1]> ∅)).
Proof.
  intros keys temps Hk Hv Hdom Ht Hf. split.
  - destruct (rename_run_posix_spec u plan w Hk Hv Hdom Ht Hf)
      as (w_mid & w' & H1 & H2 & H3 & H4 & H5 & _ & H6 & H7).
    exists w_mid, w'. tauto.
  - vm_compute. split; reflexivity.
Qed.

Lemma rename_run_overlap_safe_witness :
  exists w_mid w',
    stage posix_rename hex_supply swap_plan [] swap_dir =
      (w_mid, Ok (commit_moves hex_supply 0 swap_plan)) /\
    (forall k t, In (k, t) (stage_moves hex_supply 0 swap_plan) ->
       files w_mid !! t = files swap_dir !! k) /\
    dom (files w_mid) = (list_to_set (temps_of hex_supply 0 swap_plan) : gset path) /\
    commit posix_rename (commit_moves hex_supply 0 swap_plan) w_mid = (w', Ok tt) /\
    rename_run posix_rename hex_supply swap_plan swap_dir = (w', Ok tt) /\
    (forall k v, In (k, v) swap_plan -> files w' !! v = files swap_dir !! k) /\
    dom (files w') = (list_to_set (map snd swap_plan) : gset path).
Proof.
  refine (proj1 (rename_run_overlap_safe hex_supply swap_plan swap_dir _ _ _ _ _)).
  - decide_it.
  - decide_it.
  - decide_it.
  - decide_it.
  - fresh_it.
Defined.

Lemma forward_then_reverse_restores_witness :
  exists w1 w2,
    rename_run posix_rename hex_supply swap_plan swap_dir = (w1, Ok tt) /\
    reverse_rename_run posix_rename hex_supply swap_plan w1 = (w2, Ok tt) /\
    dom (files w2) = dom (files swap_dir) /\
    files w2 = files swap_dir.
Proof.
  apply (forward_then_reverse_restores hex_supply swap_plan swap_dir).
  - decide_it.
  - decide_it.
  - decide_it.
  - decide_it.
  - fresh_it.
  - decide_it.
  - fresh_it.
Defined.

(** ** Builder facts: decimal text *)

Lemma code_chr n : 0 <= n < 256 -> code (chr n) = n.
Proof.
  intros Hn. unfold code, chr. rewrite nat_ascii_embedding by lia. apply Z2Nat.id. lia.
Qed.

Lemma code_range c : 0 <= code c < 256.
Proof.
  unfold code. pose proof (Ascii.nat_ascii_bounded c). lia.
Qed.

Lemma digit_char_digit d : 0 <= d <= 9 -> is_digit (digit_char d) = true.
Proof.
  intros Hd. unfold is_digit, digit_char. rewrite code_chr by lia.
  apply andb_true_intro. split; apply Z.leb_le; lia.
Qed.

Lemma digit_char_value d : 0 <= d <= 9 -> code (digit_char d) - 48 = d.
Proof. intros Hd. unfold digit_char. rewrite code_chr by lia. lia. Qed.

Lemma digits_value_app a l1 l2 :
  digits_value a (l1 ++ l2) = digits_value (digits_value a l1) l2.
Proof. revert a; induction l1 as [|c l1 IH]; intros a; simpl; auto. Qed.

Lemma digits_aux_acc f n acc : digits_aux f n acc = digits_aux f n [] ++ acc.
Proof.
  revert n acc; induction f as [|f IH]; intros n acc; simpl; [reflexivity|].
  destruct (n <? 10); [reflexivity|].
  rewrite (IH _ (_ :: acc)), (IH _ [_]), <- app_assoc. reflexivity.
Qed.

Lemma digits_aux_digits f n :
  0 <= n -> Forall (fun c => is_digit c = true) (digits_aux f n []).
Proof.
  revert n; induction f as [|f IH]; intros n Hn; simpl; [constructor|].
  assert (Hd : is_digit (digit_char (n mod 10)) = true)
    by (apply digit_char_digit; pose proof (Z.mod_pos_bound n 10); lia).
  destruct (n <? 10); [constructor; auto|].
  rewrite digits_aux_acc. apply Forall_app. split.
  - apply IH. apply Z.div_pos; lia.
  - constructor; auto.
Qed.

Lemma digits_aux_nonempty f n : digits_aux (S f) n [] <> [].
Proof.
  simpl. destruct (n <? 10); [discriminate|].
  rewrite digits_aux_acc. destruct (digits_aux f _ []); discriminate.
Qed.

Lemma digits_aux_value f n :
  0 <= n < Z.of_nat f -> digits_value 0 (digits_aux f n []) = n.
Proof.
  revert n; induction f as [|f IH]; intros n Hn; [lia|]. simpl.
  pose proof (Z.mod_pos_bound n 10) as Hm.
  destruct (n <? 10) eqn:E.
  - apply Z.ltb_lt in E. simpl. rewrite digit_char_value by lia.
    rewrite Z.mod_small; lia.
  - apply Z.ltb_ge in E. rewrite digits_aux_acc, digits_value_app, IH.
    + simpl. rewrite digit_char_value by lia.
      pose proof (Z.div_mod n 10). lia.
    + split; [apply Z.div_pos; lia|].
      assert (n / 10 < n) by (apply Z.div_lt; lia). lia.
Qed.

Lemma digits_of_digits n : 0 <= n -> Forall (fun c => is_digit c = true) (digits_of n).
Proof. apply digits_aux_digits. Qed.

Lemma digits_of_value n : 0 <= n -> digits_value 0 (digits_of n) = n.
Proof. intros Hn. apply digits_aux_value. lia. Qed.

Lemma digits_of_nonempty n : digits_of n <> [].
Proof. apply digits_aux_nonempty. Qed.

Lemma str_of_int_nonneg n : 0 <= n -> str_of_int n = digits_of n.
Proof. intros Hn. unfold str_of_int. destruct (n <? 0) eqn:E; [lia|reflexivity]. Qed.

Lemma digits_value_zeros k a : digits_value a (repeat "0"%char k) = a * 10 ^ Z.of_nat k.
Proof.
  revert a; induction k as [|k IH]; intros a; simpl; [lia|].
  rewrite IH. replace (code "0"%char - 48) with 0 by reflexivity.
  rewrite Nat2Z.inj_succ, Z.pow_succ_r by lia. lia.
Qed.

(** The padded index [str(n).zfill(w)] of a natural number: all digits,
    not empty, and read back as [n]. *)
Lemma zfill_index n w :
  0 <= n ->
  Forall (fun c => is_digit c = true) (zfill (str_of_int n) w) /\
  zfill (str_of_int n) w <> [] /\
  digits_value 0 (zfill (str_of_int n) w) = n.
Proof.
  intros Hn. rewrite str_of_int_nonneg by exact Hn.
  pose proof (digits_of_digits n Hn) as Hd.
  pose proof (digits_of_nonempty n) as Hne.
  pose proof (digits_of_value n Hn) as Hv.
  unfold zfill. destruct (w <=? _); [auto|].
  destruct (digits_of n) as [|c r] eqn:E; [contradiction|].
  assert (Hc : (code c =? 43) || (code c =? 45) = false).
  { inversion Hd as [|? ? Hc _]. unfold is_digit in Hc.
    apply andb_true_iff in Hc as [H1 H2]. apply Z.leb_le in H1, H2.
    apply orb_false_iff. split; apply Z.eqb_neq; lia. }
  rewrite Hc. split; [|split].
  - apply Forall_app. split; [|exact Hd]. apply Forall_forall.
    intros x Hx. apply list_elem_of_In, repeat_spec in Hx. subst. reflexivity.
  - destruct (repeat _ _); discriminate.
  - rewrite digits_value_app, digits_value_zeros. simpl Z.mul. exact Hv.
Qed.

Lemma apply_case_map c ps : apply_case c ps = map (case_fn c) ps.
Proof. unfold apply_case, case_fn. destruct (str_eqb c _); [|destruct (str_eqb c _)]; reflexivity. Qed.

Lemma digit_not_upper c : is_digit c = true -> is_upper c = false.
Proof.
  unfold is_digit, is_upper. intros H. apply andb_true_iff in H as [H1 H2].
  apply Z.leb_le in H1, H2. apply andb_false_iff. left. apply Z.leb_gt. lia.
Qed.

Lemma digit_not_lower c : is_digit c = true -> is_lower c = false.
Proof.
  unfold is_digit, is_lower. intros H. apply andb_true_iff in H as [H1 H2].
  apply Z.leb_le in H1, H2. apply andb_false_iff. left. apply Z.leb_gt. lia.
Qed.

(** The case transforms leave a string of digits unchanged. *)
Lemma case_fn_digits c z : Forall (fun x => is_digit x = true) z -> case_fn c z = z.
Proof.
  intros Hz.
  assert (Hl : map lower_char z = z).
  { induction Hz as [|x z Hx _ IH]; simpl; [reflexivity|].
    rewrite IH. unfold lower_char. rewrite digit_not_upper by exact Hx. reflexivity. }
  assert (Hu : map upper_char z = z).
  { clear Hl. induction Hz as [|x z Hx _ IH]; simpl; [reflexivity|].
    rewrite IH. unfold upper_char. rewrite digit_not_lower by exact Hx. reflexivity. }
  assert (Ht : forall b, title_aux b z = z).
  { clear Hl Hu. induction Hz as [|x z Hx _ IH]; intros b; simpl; [reflexivity|].
    unfold is_cased. rewrite digit_not_upper, digit_not_lower by exact Hx. simpl.
    rewrite IH. unfold lower_char, upper_char.
    rewrite digit_not_upper, digit_not_lower by exact Hx. destruct b; reflexivity. }
  unfold case_fn, py_lower, py_upper, py_title.
  destruct (str_eqb c _); [exact Hu|]. destruct (str_eqb c _); [apply Ht|exact Hl].
Qed.

Lemma py_join_snoc sep ps z :
  py_join sep (ps ++ [z]) = match ps with [] => z | _ => py_join sep ps ++ sep ++ z end.
Proof.
  induction ps as [|p ps IH]; [reflexivity|].
  assert (E : py_join sep ((p :: ps) ++ [z]) = p ++ sep ++ py_join sep (ps ++ [z])).
  { simpl. destruct (ps ++ [z]) eqn:E; [destruct ps; discriminate|reflexivity]. }
  rewrite E, IH. destruct ps as [|q ps]; [reflexivity|].
  change (py_join sep (p :: q :: ps)) with (p ++ sep ++ py_join sep (q :: ps)).
  rewrite <- !app_assoc. reflexivity.
Qed.

Lemma new_name_numbered cfg item index :
  keep cfg = false -> no_number cfg = false -> 0 <= index ->
  new_name cfg item index = name_head cfg ++ zfill (str_of_int index) (padding cfg).
Proof.
  intros Hk Hn Hi. destruct (zfill_index index (padding cfg) Hi) as [Hd _].
  unfold new_name, name_parts, name_head. rewrite Hk, Hn, apply_case_map.
  destruct (str_eqb (prefix cfg) []); simpl.
  - apply case_fn_digits, Hd.
  - rewrite (case_fn_digits _ (zfill _ _) Hd), <- app_assoc. reflexivity.
Qed.

Lemma rfind_aux_spec c s i best j :
  rfind_aux c s i best = Some j -> best = Some j \/ ((i <= j)%nat /\ s !! (j - i)%nat = Some c).
Proof.
  revert i best; induction s as [|x s IH]; intros i best H; simpl in H; [auto|].
  destruct (IH _ _ H) as [Hb|[Hle Hs]].
  - case_bool_decide; [|auto]. subst. right. injection Hb as <-.
    rewrite Nat.sub_diag. split; [lia|reflexivity].
  - right. split; [lia|]. replace (j - i)%nat with (S (j - S i)) by lia. exact Hs.
Qed.

Lemma suffix_shape nm : suffix nm = [] \/ exists r, suffix nm = "."%char :: r.
Proof.
  unfold suffix, suffix_index. destruct (rfind_dot nm) as [i|] eqn:E; [|auto].
  destruct (_ && _); [|auto]. right.
  destruct (rfind_aux_spec _ _ _ _ _ E) as [[=]|[_ Hi]].
  rewrite Nat.sub_0_r in Hi. exists (drop (S i) nm). apply drop_S, Hi.
Qed.

Lemma suffix_head_not_digit nm : head_not_digit (suffix nm).
Proof. destruct (suffix_shape nm) as [->|[r ->]]; reflexivity. Qed.

Lemma digits_prefix_eq z1 z2 s1 s2 :
  Forall (fun c => is_digit c = true) z1 -> Forall (fun c => is_digit c = true) z2 ->
  head_not_digit s1 -> head_not_digit s2 -> z1 ++ s1 = z2 ++ s2 -> z1 = z2.
Proof.
  revert z2; induction z1 as [|c z1 IH]; intros z2 H1 H2 Hs1 Hs2 E.
  - destruct z2 as [|c2 z2]; [reflexivity|]. simpl in E. subst s1.
    inversion H2 as [|? ? Hc _]. simpl in Hs1. congruence.
  - destruct z2 as [|c2 z2].
    + simpl in E. subst s2. inversion H1 as [|? ? Hc _]. simpl in Hs2. congruence.
    + simpl in E. injection E as -> E. inversion H1; inversion H2; subst.
      f_equal. eauto.
Qed.

(** Without the stem and with numbering, the index can be read back from a
    target name: two equal targets have equal indices. *)
Lemma target_index_inj cfg f g i j :
  keep cfg = false -> no_number cfg = false -> 0 <= i -> 0 <= j ->
  new_name cfg f i ++ suffix (name f) = new_name cfg g j ++ suffix (name g) -> i = j.
Proof.
  intros Hk Hn Hi Hj E.
  rewrite !new_name_numbered in E by assumption.
  rewrite <- !app_assoc in E. apply app_inv_head in E.
  destruct (zfill_index i (padding cfg) Hi) as [Hdi [_ Hvi]].
  destruct (zfill_index j (padding cfg) Hj) as [Hdj [_ Hvj]].
  pose proof (digits_prefix_eq _ _ _ _ Hdi Hdj (suffix_head_not_digit _)
                (suffix_head_not_digit _) E) as Ez.
  rewrite <- Hvi, <- Hvj, Ez. reflexivity.
Qed.

(** ** Builder facts: the plan as a list of entries *)

Lemma insert_sorted_perm {A} (lt : A -> A -> bool) x l :
  Permutation (insert_sorted lt x l) (x :: l).
Proof.
  induction l as [|y l IH]; simpl; [reflexivity|].
  destruct (lt y x); [|reflexivity].
  rewrite IH. apply perm_swap.
Qed.

Lemma sort_by_perm {A} (lt : A -> A -> bool) l : Permutation (sort_by lt l) l.
Proof.
  induction l as [|x l IH]; simpl; [reflexivity|].
  rewrite insert_sorted_perm, IH. reflexivity.
Qed.

Lemma sort_files_perm l o r : sort_files l o = Ok r -> Permutation r l.
Proof.
  unfold sort_files. intros H.
  repeat match type of H with
  | context [if ?b then _ else _] => destruct b
  end; [injection H as <-; apply sort_by_perm..|discriminate].
Qed.

Lemma nodup_names_filter (f : FileEntry -> bool) l :
  NoDup (map name l) -> NoDup (map name (List.filter f l)).
Proof.
  induction l as [|x l IH]; simpl; intros H; [constructor|].
  inversion H as [|? ? Hx Hl]; subst. destruct (f x); simpl; [|auto].
  constructor; [|auto]. intros Hin. apply Hx.
  rewrite list_elem_of_In in Hin |- *. apply in_map_iff in Hin as (y & <- & Hy).
  apply filter_In in Hy as [Hy _]. apply in_map, Hy.
Qed.

Lemma plan_entries_fst cfg i l : map fst (plan_entries cfg i l) = map name l.
Proof. revert i; induction l; intros i; simpl; f_equal; auto. Qed.

Lemma plan_loop_app cfg i ordered acc :
  NoDup (map name ordered) ->
  (forall x, In x (map name ordered) -> ~ In x (map fst acc)) ->
  plan_loop cfg i ordered acc = acc ++ plan_entries cfg i ordered.
Proof.
  revert i acc; induction ordered as [|item rest IH]; intros i acc Hnd Hdis; simpl.
  - rewrite app_nil_r. reflexivity.
  - inversion Hnd as [|? ? Hnin Hnd']; subst.
    rewrite list_elem_of_In in Hnin.
    rewrite dict_set_new by (apply Hdis; left; reflexivity).
    rewrite IH; [rewrite <- app_assoc; reflexivity|exact Hnd'|].
    intros x Hx. rewrite map_app. simpl. rewrite in_app_iff. intros [Ha|[<-|[]]].
    + exact (Hdis x (or_intror Hx) Ha).
    + exact (Hnin Hx).
Qed.

Lemma plan_entries_snd_in cfg j l t :
  In t (map snd (plan_entries cfg j l)) ->
  exists item k, j <= k /\ t = new_name cfg item k ++ suffix (name item).
Proof.
  revert j; induction l as [|item l IH]; intros j H; simpl in H; [destruct H|].
  destruct H as [<-|H].
  - exists item, j. split; [lia|reflexivity].
  - destruct (IH _ H) as (it & k & Hk & ->). exists it, k. split; [lia|reflexivity].
Qed.

(** With numbering and without the stem, the targets of the loop are
    pairwise distinct. *)
Lemma plan_entries_nodup cfg i l :
  keep cfg = false -> no_number cfg = false -> 0 <= i ->
  NoDup (map snd (plan_entries cfg i l)).
Proof.
  intros Hk Hn. revert i; induction l as [|item l IH]; intros i Hi; simpl; constructor.
  - rewrite list_elem_of_In. intros H.
    destruct (plan_entries_snd_in _ _ _ _ H) as (it & k & Hik & E).
    apply target_index_inj in E; [lia|assumption..|lia].
  - apply IH. lia.
Qed.

(** ** C1: uniqueness of the targets *)

(** C1 (counterexample): [cfg_keep_only] passes every check of the CLI
    ([keep] with [no_number]), yet the builder maps both [A.txt] and
    [a.txt] to [a.txt] and returns the plan without detecting it. *)
Lemma plan_collision_keep_no_number :
  valid_config cfg_keep_only = true /\
  buil_rename_plan (Some [file "A.txt"; file "a.txt"]) cfg_keep_only
  = Ok [(py "A.txt", py "a.txt"); (py "a.txt", py "a.txt")].
Proof. split; vm_compute; reflexivity. Qed.

(** C1 (amended): for a valid configuration with [keep = false] (hence with
    numbering) and a listing of distinct names, the plan has exactly the
    listed regular files as keys, each once, and pairwise distinct targets. *)
Theorem plan_targets_unique listing cfg p :
  valid_config cfg = true -> keep cfg = false ->
  NoDup (map name listing) ->
  buil_rename_plan (Some listing) cfg = Ok p ->
  Permutation (map fst p) (map name (List.filter is_file listing)) /\
  NoDup (map fst p) /\ NoDup (map snd p).
Proof.
  intros Hv Hk Hnd Hb. unfold valid_config in Hv.
  rewrite !andb_true_iff in Hv.
  destruct Hv as [[[[[_ _] Hs] _] _] Hkn].
  unfold is_valid_start_index in Hs. apply Z.ltb_lt in Hs.
  unfold is_invalid_keep_no_number_combination in Hkn. rewrite Hk in Hkn. simpl in Hkn.
  apply negb_true_iff in Hkn.
  simpl in Hb. destruct (sort_files _ _) as [ordered|e] eqn:Hs'; [|discriminate].
  injection Hb as <-.
  pose proof (sort_files_perm _ _ _ Hs') as Hp.
  pose proof (nodup_names_filter is_file _ Hnd) as Hnf.
  assert (Hno : NoDup (map name ordered)).
  { pose proof (Permutation_map name Hp) as Hpm. rewrite Hpm. exact Hnf. }
  rewrite plan_loop_app by (assumption || (intros ? ? [])). simpl.
  rewrite plan_entries_fst. split; [|split].
  - apply Permutation_map, Hp.
  - exact Hno.
  - apply plan_entries_nodup; [assumption|assumption|lia].
Qed.

Lemma plan_targets_unique_witness :
  valid_config cfg_base = true /\ keep cfg_base = false /\
  NoDup (map name [file "b.txt"; file "a.txt"]) /\
  buil_rename_plan (Some [file "b.txt"; file "a.txt"]) cfg_base
  = Ok [(py "a.txt", py "1.txt"); (py "b.txt", py "2.txt")] /\
  NoDup (map snd [(py "a.txt", py "1.txt"); (py "b.txt", py "2.txt")]).
Proof.
  assert (Hv : valid_config cfg_base = true) by (vm_compute; reflexivity).
  assert (Hk : keep cfg_base = false) by reflexivity.
  assert (Hn : NoDup (map name [file "b.txt"; file "a.txt"])) by (vm_compute; decide_it).
  assert (Hb : buil_rename_plan (Some [file "b.txt"; file "a.txt"]) cfg_base
    = Ok [(py "a.txt", py "1.txt"); (py "b.txt", py "2.txt")]) by (vm_compute; reflexivity).
  refine (conj Hv (conj Hk (conj Hn (conj Hb _)))).
  exact (proj2 (proj2 (plan_targets_unique _ _ _ Hv Hk Hn Hb))).
Defined.

(** ** C2 and C10: what the builder checks *)

Example ex_start_zero :
  valid_config cfg_start_zero = false /\
  buil_rename_plan (Some [file "a.txt"]) cfg_start_zero = Ok [(py "a.txt", py "0.txt")].
Proof. split; vm_compute; reflexivity. Qed.

Lemma sort_files_ok l o :
  existsb (str_eqb o) [py "name"; py "mtime"; py "ctime"; py "embedded"] = true ->
  exists r, sort_files l o = Ok r.
Proof.
  unfold sort_files. cbn [existsb] in *. intros H.
  destruct (str_eqb o (py "name")); [eauto|].
  destruct (str_eqb o (py "mtime")); [eauto|].
  destruct (str_eqb o (py "ctime")); [eauto|].
  destruct (str_eqb o (py "embedded")); [eauto|discriminate].
Qed.

Lemma plan_loop_ext cfg cfg' i l acc :
  (forall item k, new_name cfg item k = new_name cfg' item k) ->
  plan_loop cfg i l acc = plan_loop cfg' i l acc.
Proof.
  intros H. revert i acc; induction l as [|item l IH]; intros i acc; simpl; [reflexivity|].
  rewrite H. apply IH.
Qed.

(** C2: the builder checks none of [start], [padding], [separator], [case]
    and the [keep]/[no_number] combination: for every supported order it
    returns a plan whatever these fields are, and the only error it raises
    before the listing, for a missing source, does not depend on them. *)
Theorem build_skips_config_checks listing cfg :
  existsb (str_eqb (order cfg)) [py "name"; py "mtime"; py "ctime"; py "embedded"] = true ->
  (exists p, buil_rename_plan (Some listing) cfg = Ok p) /\
  buil_rename_plan None cfg
  = Err (ValueError (py "Source path does not exist or is not a directory.")).
Proof.
  intros Ho. split; [|reflexivity].
  destruct (sort_files_ok (List.filter is_file listing) _ Ho) as [r Hr].
  simpl. rewrite Hr. eauto.
Qed.

Lemma build_skips_config_checks_witness :
  valid_config cfg_invalid = false /\
  existsb (str_eqb (order cfg_invalid)) [py "name"; py "mtime"; py "ctime"; py "embedded"] = true /\
  exists p, buil_rename_plan (Some [file "a.txt"]) cfg_invalid = Ok p.
Proof.
  assert (Ho : existsb (str_eqb (order cfg_invalid))
                 [py "name"; py "mtime"; py "ctime"; py "embedded"] = true)
    by (vm_compute; reflexivity).
  split; [vm_compute; reflexivity|]. split; [exact Ho|].
  exact (proj1 (build_skips_config_checks [file "a.txt"] cfg_invalid Ho)).
Defined.

(** C10: a [case] other than ["upper"] and ["title"] (["original"], [""],
    ...) raises nothing and gives the plan of [case = "lower"]. *)
Theorem case_fallback_lower src cfg :
  str_eqb (case cfg) (py "upper") = false ->
  str_eqb (case cfg) (py "title") = false ->
  buil_rename_plan src cfg = buil_rename_plan src (with_case cfg (py "lower")).
Proof.
  intros Hu Ht. destruct src as [listing|]; [|reflexivity].
  unfold buil_rename_plan. cbn [with_case order start].
  destruct (sort_files _ _); [|reflexivity].
  f_equal. apply plan_loop_ext. intros item k.
  unfold new_name, apply_case. rewrite Hu, Ht. reflexivity.
Qed.

Lemma case_fallback_lower_witness :
  str_eqb (py "original") (py "upper") = false /\
  str_eqb (py "original") (py "title") = false /\
  buil_rename_plan (Some [file "A.TXT"])
    (mkConfig (py "name") (py "Img") (py "_") 1 2 (py "original") true false)
  = buil_rename_plan (Some [file "A.TXT"])
      (with_case (mkConfig (py "name") (py "Img") (py "_") 1 2 (py "original") true false)
         (py "lower")).
Proof.
  assert (Hu : str_eqb (py "original") (py "upper") = false) by (vm_compute; reflexivity).
  assert (Ht : str_eqb (py "original") (py "title") = false) by (vm_compute; reflexivity).
  split; [exact Hu|]. split; [exact Ht|].
  exact (case_fallback_lower _ (mkConfig (py "name") (py "Img") (py "_") 1 2 (py "original") true false) Hu Ht).
Defined.

(** ** C5: the target name, against its description *)

Lemma zfill_spec_pad i w : 0 <= i -> zfill (str_of_int i) w = spec_pad i w.
Proof.
  intros Hi. unfold zfill, spec_pad. destruct (w <=? _); [reflexivity|].
  rewrite str_of_int_nonneg by exact Hi.
  pose proof (digits_of_digits i Hi) as Hd. pose proof (digits_of_nonempty i) as Hne.
  destruct (digits_of i) as [|c r]; [congruence|].
  inversion Hd as [|? ? Hc _]; subst.
  unfold is_digit in Hc. apply andb_true_iff in Hc as [H1 H2]. apply Z.leb_le in H1, H2.
  replace ((code c =? 43) || (code c =? 45)) with false; [reflexivity|].
  symmetry. apply orb_false_iff. split; apply Z.eqb_neq; lia.
Qed.

Lemma case_fn_spec c s : is_valid_case c = true -> case_fn c s = spec_case c s.
Proof.
  unfold is_valid_case. cbn [existsb]. intros H.
  destruct (str_eqb c (py "lower")) eqn:El.
  - unfold str_eqb in El. apply bool_decide_eq_true in El. subst. reflexivity.
  - destruct (str_eqb c (py "upper")) eqn:Eu.
    + unfold str_eqb in Eu. apply bool_decide_eq_true in Eu. subst. reflexivity.
    + destruct (str_eqb c (py "title")) eqn:Et; [|discriminate].
      unfold str_eqb in Et. apply bool_decide_eq_true in Et. subst. reflexivity.
Qed.

Lemma plan_entries_spec cfg i l :
  is_valid_case (case cfg) = true -> 0 <= i ->
  plan_entries cfg i l = spec_plan cfg i l.
Proof.
  intros Hc. revert i; induction l as [|item l IH]; intros i Hi; simpl; [reflexivity|].
  rewrite IH by lia. do 2 f_equal.
  unfold spec_target, new_name. f_equal. rewrite apply_case_map.
  unfold name_parts, spec_components. rewrite zfill_spec_pad by exact Hi.
  f_equal. apply map_ext. intros s. apply case_fn_spec, Hc.
Qed.

(** C5: for a valid configuration, the plan maps each ordered file to the
    name built as described: the components (prefix, stem, padded index),
    each case-transformed, joined with the separator, then the original
    extension; indices run from [start]. The photo example holds. *)
Theorem plan_matches_spec listing cfg ordered :
  valid_config cfg = true -> NoDup (map name listing) ->
  sort_files (List.filter is_file listing) (order cfg) = Ok ordered ->
  buil_rename_plan (Some listing) cfg = Ok (spec_plan cfg (start cfg) ordered) /\
  buil_rename_plan (Some photos) cfg_photos
  = Ok [(py "photo1.jpg", py "IMG_01.jpg"); (py "photo10.jpg", py "IMG_02.jpg");
        (py "photo2.jpg", py "IMG_03.jpg")].
Proof.
  intros Hv Hnd Hs. split; [|vm_compute; reflexivity].
  unfold valid_config in Hv. rewrite !andb_true_iff in Hv.
  destruct Hv as [[[[[_ _] Hst] _] Hc] _].
  unfold is_valid_start_index in Hst. apply Z.ltb_lt in Hst.
  pose proof (sort_files_perm _ _ _ Hs) as Hp.
  pose proof (nodup_names_filter is_file _ Hnd) as Hnf.
  assert (Hno : NoDup (map name ordered)).
  { pose proof (Permutation_map name Hp) as Hpm. rewrite Hpm. exact Hnf. }
  simpl. rewrite Hs. f_equal.
  rewrite plan_loop_app by (assumption || (intros ? ? [])). simpl.
  apply plan_entries_spec; [exact Hc|lia].
Qed.

Lemma plan_matches_spec_witness :
  exists ordered,
    sort_files (List.filter is_file photos) (order cfg_photos) = Ok ordered /\
    buil_rename_plan (Some photos) cfg_photos = Ok (spec_plan cfg_photos 1 ordered).
Proof.
  assert (Hv : valid_config cfg_photos = true) by (vm_compute; reflexivity).
  assert (Hn : NoDup (map name photos)) by (vm_compute; decide_it).
  destruct (sort_files (List.filter is_file photos) (order cfg_photos)) as [o|e] eqn:Hs.
  - exists o. split; [reflexivity|].
    exact (proj1 (plan_matches_spec photos cfg_photos o Hv Hn Hs)).
  - vm_compute in Hs. discriminate.
Defined.

(** ** C6: ordering by the embedded number *)

Lemma take_digits_split s :
  exists post, s = take_digits s ++ post /\ head_not_digit post.
Proof.
  induction s as [|c s IH]; simpl; [exists []; split; [reflexivity|exact I]|].
  destruct (is_digit c) eqn:Hc.
  - destruct IH as (post & Hs & Hp). exists post. split; [simpl; congruence|exact Hp].
  - exists (c :: s). split; [reflexivity|exact Hc].
Qed.

Lemma take_digits_digits s : Forall (fun c => is_digit c = true) (take_digits s).
Proof.
  induction s as [|c s IH]; simpl; [constructor|].
  destruct (is_digit c) eqn:Hc; [constructor; assumption|constructor].
Qed.

Lemma search_digits_none s :
  search_digits s = None <-> Forall (fun c => is_digit c = false) s.
Proof.
  induction s as [|c s IH]; simpl; [split; [constructor|reflexivity]|].
  destruct (is_digit c) eqn:Hc; split; intros H.
  - discriminate.
  - inversion H; congruence.
  - constructor; [exact Hc|apply IH, H].
  - inversion H; subst. apply IH. assumption.
Qed.

(** [re.search(r"\d+", s)] finds the first maximal run of digits. *)
Lemma search_digits_some s m :
  search_digits s = Some m ->
  exists pre post, s = pre ++ m ++ post /\ Forall (fun c => is_digit c = false) pre /\
    m <> [] /\ Forall (fun c => is_digit c = true) m /\ head_not_digit post.
Proof.
  induction s as [|c s IH]; simpl; intros H; [discriminate|].
  destruct (is_digit c) eqn:Hc.
  - injection H as <-. destruct (take_digits_split (c :: s)) as (post & Hs & Hp).
    simpl in Hs. rewrite Hc in Hs.
    exists [], post. split; [exact Hs|]. split; [constructor|].
    split; [discriminate|]. split; [|exact Hp].
    pose proof (take_digits_digits (c :: s)) as Ht. simpl in Ht. rewrite Hc in Ht. exact Ht.
  - destruct (IH H) as (pre & post & -> & Hpre & Hm).
    exists (c :: pre), post. split; [reflexivity|]. split; [constructor; assumption|exact Hm].
Qed.

Lemma digits_value_nonneg a s :
  0 <= a -> Forall (fun c => is_digit c = true) s -> 0 <= digits_value a s.
Proof.
  intros Ha Hs. revert a Ha; induction Hs as [|c s Hc _ IH]; intros a Ha; simpl; [exact Ha|].
  apply IH. unfold is_digit in Hc. apply andb_true_iff in Hc as [H1 _].
  apply Z.leb_le in H1. lia.
Qed.

Section KeySort.
  Context {B : Type} (key : B -> Z).

Lemma insert_sorted_split x l :
    exists pre post, insert_sorted (key_lt key) x l = pre ++ x :: post /\ l = pre ++ post /\
      Forall (fun y => key y < key x) pre.
  Proof.
    induction l as [|y l IH]; simpl.
    - exists [], []. repeat split. constructor.
    - unfold key_lt at 1. destruct (key y <? key x) eqn:E.
      + destruct IH as (pre & post & -> & -> & Hp). exists (y :: pre), post.
        split; [reflexivity|]. split; [reflexivity|]. constructor; [apply Z.ltb_lt, E|exact Hp].
      + exists [], (y :: l). repeat split. constructor.
  Qed.

Lemma filter_key_insert k x l :
    List.filter (fun z => key z =? k) (insert_sorted (key_lt key) x l)
    = List.filter (fun z => key z =? k) (x :: l).
  Proof.
    destruct (insert_sorted_split x l) as (pre & post & -> & -> & Hp).
    assert (Hpre : forall k', k' = key x -> List.filter (fun z => key z =? k') pre = []).
    { intros k' ->. induction Hp as [|y pre Hy _ IH]; simpl; [reflexivity|].
      replace (key y =? key x) with false by (symmetry; apply Z.eqb_neq; lia). exact IH. }
    simpl. rewrite !List.filter_app. simpl. destruct (key x =? k) eqn:E.
    - apply Z.eqb_eq in E. rewrite (Hpre k (eq_sym E)). reflexivity.
    - reflexivity.
  Qed.

  (** [sorted] keeps the input order among equal keys. *)
Lemma filter_key_sort k l :
    List.filter (fun z => key z =? k) (sort_by (key_lt key) l)
    = List.filter (fun z => key z =? k) l.
  Proof.
    induction l as [|x l IH]; simpl; [reflexivity|].
    rewrite filter_key_insert. simpl. rewrite IH. reflexivity.
  Qed.

Lemma insert_sorted_sorted x l :
    Sorted (fun a b => key a <= key b) l ->
    Sorted (fun a b => key a <= key b) (insert_sorted (key_lt key) x l).
  Proof.
    induction l as [|y l IH]; simpl; intros Hs; [repeat constructor|].
    unfold key_lt at 1. destruct (key y <? key x) eqn:E.
    - apply Z.ltb_lt in E. inversion Hs as [|? ? Hl Hh]; subst. constructor; [auto|].
      destruct l as [|z l]; simpl; [constructor; lia|].
      unfold key_lt. destruct (key z <? key x); constructor; [inversion Hh; assumption|lia].
    - apply Z.ltb_ge in E. constructor; [exact Hs|constructor; exact E].
  Qed.

Lemma sort_by_sorted l : Sorted (fun a b => key a <= key b) (sort_by (key_lt key) l).
  Proof. induction l; simpl; [constructor|apply insert_sorted_sorted; assumption]. Qed.
End KeySort.

(** C6: by ["embedded"], the files are a permutation of the input sorted by
    the first maximal run of digits of the stem, stable among equal keys;
    the key is -1 exactly when the stem has no digit and is the (non-negative)
    value of the run otherwise; [file3, file1, fileA] sorts to
    [fileA, file1, file3]. *)
Theorem sort_embedded_spec l :
  (exists r, sort_files l (py "embedded") = Ok r /\ Permutation r l /\
     Sorted (fun a b => emb a <= emb b) r /\
     forall k, List.filter (fun x => emb x =? k) r = List.filter (fun x => emb x =? k) l) /\
  (forall f, emb f = -1 <-> Forall (fun c => is_digit c = false) (stem (name f))) /\
  (forall f m, search_digits (stem (name f)) = Some m ->
     emb f = digits_value 0 m /\ 0 <= emb f /\
     exists pre post, stem (name f) = pre ++ m ++ post /\
       Forall (fun c => is_digit c = false) pre /\ m <> [] /\
       Forall (fun c => is_digit c = true) m /\ head_not_digit post) /\
  sort_files [file "file3.txt"; file "file1.txt"; file "fileA.txt"] (py "embedded")
  = Ok [file "fileA.txt"; file "file1.txt"; file "file3.txt"].
Proof.
  split; [|split; [|split]].
  - exists (sort_by (key_lt emb) l). split; [reflexivity|].
    split; [apply sort_by_perm|]. split; [apply sort_by_sorted|]. intros k. apply (filter_key_sort emb k l).
  - intros f. unfold emb, extract_embedded_number. rewrite <- search_digits_none.
    destruct (search_digits (stem (name f))) as [m|] eqn:E; [|tauto].
    destruct (search_digits_some _ _ E) as (_ & _ & _ & _ & _ & Hd & _).
    pose proof (digits_value_nonneg 0 m (Z.le_refl 0) Hd). split; [lia|discriminate].
  - intros f m E. unfold emb, extract_embedded_number. rewrite E.
    pose proof (search_digits_some _ _ E) as Hs.
    destruct Hs as (pre & post & Hs & Hpre & Hne & Hd & Hp).
    split; [reflexivity|]. split; [apply digits_value_nonneg; [lia|exact Hd]|].
    exists pre, post. auto.
  - vm_compute. reflexivity.
Qed.

(** ** C9: running the builder again on its own output *)

Lemma targets_from_length cfg ext i n : length (targets_from cfg ext i n) = n.
Proof. revert i; induction n; intros i; simpl; [reflexivity|]. rewrite IHn. reflexivity. Qed.

Lemma rfind_aux_app c s1 s2 i best :
  rfind_aux c (s1 ++ s2) i best = rfind_aux c s2 (i + length s1) (rfind_aux c s1 i best).
Proof.
  revert i best; induction s1 as [|x s1 IH]; intros i best; simpl.
  - rewrite Nat.add_0_r. reflexivity.
  - rewrite IH. f_equal. lia.
Qed.

Lemma rfind_aux_absent c s i best : ~ In c s -> rfind_aux c s i best = best.
Proof.
  revert i best; induction s as [|x s IH]; intros i best H; simpl; [reflexivity|].
  rewrite bool_decide_false by (intros ->; apply H; left; reflexivity).
  apply IH. intros Hin. apply H. right. exact Hin.
Qed.

(** A name ending in an extension [.r] ([r] nonempty, without dot) has that
    suffix. *)
Lemma suffix_app a r :
  a <> [] -> r <> [] -> ~ In "."%char r -> suffix (a ++ "."%char :: r) = "."%char :: r.
Proof.
  intros Ha Hr Hd. unfold suffix, suffix_index, rfind_dot.
  rewrite rfind_aux_app. simpl rfind_aux at 1.
  try rewrite bool_decide_true by reflexivity. rewrite rfind_aux_absent by exact Hd.
  rewrite length_app. simpl length.
  destruct a as [|x a]; [congruence|]. destruct r as [|y r]; [congruence|].
  match goal with |- context [if ?b then _ else _] => replace b with true end;
    [|symmetry; apply andb_true_iff; split; apply Nat.ltb_lt; simpl; lia].
  apply drop_app_length.
Qed.

Lemma targets_from_suffix cfg r i n t :
  r <> [] -> ~ In "."%char r -> 0 <= i ->
  In t (targets_from cfg ("."%char :: r) i n) -> suffix t = "."%char :: r.
Proof.
  intros Hr Hd. revert i; induction n as [|n IH]; intros i Hi Ht; simpl in Ht; [destruct Ht|].
  destruct Ht as [<-|Ht]; [|apply (IH (i + 1)); [lia|exact Ht]].
  rewrite app_assoc. apply suffix_app; [|exact Hr|exact Hd].
  destruct (zfill_index i (padding cfg) Hi) as [_ [Hne _]].
  intros E. apply app_eq_nil in E as [_ E]. exact (Hne E).
Qed.

Lemma plan_entries_targets cfg ext i l :
  keep cfg = false -> no_number cfg = false -> 0 <= i ->
  (forall f, In f l -> suffix (name f) = ext) ->
  map snd (plan_entries cfg i l) = targets_from cfg ext i (length l).
Proof.
  intros Hk Hn. revert i; induction l as [|f l IH]; intros i Hi Hs; simpl; [reflexivity|].
  rewrite new_name_numbered by assumption. rewrite Hs by (left; reflexivity).
  rewrite <- app_assoc. f_equal. apply IH; [lia|]. intros g Hg. apply Hs. right. exact Hg.
Qed.

Lemma build_entries listing cfg p :
  NoDup (map name (List.filter is_file listing)) ->
  buil_rename_plan (Some listing) cfg = Ok p ->
  exists ordered, Permutation ordered (List.filter is_file listing) /\
    p = plan_entries cfg (start cfg) ordered.
Proof.
  intros Hnf Hb. simpl in Hb. destruct (sort_files _ _) as [ordered|e] eqn:Hs; [|discriminate].
  injection Hb as <-. pose proof (sort_files_perm _ _ _ Hs) as Hp.
  assert (Hno : NoDup (map name ordered)).
  { pose proof (Permutation_map name Hp) as Hpm. rewrite Hpm. exact Hnf. }
  exists ordered. split; [exact Hp|].
  rewrite plan_loop_app by (assumption || (intros ? ? [])). reflexivity.
Qed.

(** C9 (counterexample): with [keep] the stem grows on every run: [a.txt]
    becomes [a_1.txt], and a second run renames that to [a_1_1.txt]. *)
Lemma rerun_drift_keep :
  valid_config cfg_keep_num = true /\
  buil_rename_plan (Some [file "a.txt"]) cfg_keep_num = Ok [(py "a.txt", py "a_1.txt")] /\
  buil_rename_plan (Some [file "a_1.txt"]) cfg_keep_num = Ok [(py "a_1.txt", py "a_1_1.txt")].
Proof. repeat split; vm_compute; reflexivity. Qed.

(** C9 (amended): for a valid configuration with [keep = false], when every
    file has the same extension [.r], running the builder on the renamed
    files (any listing whose regular files carry exactly the first run's
    targets, in any order and with any times) gives the same targets. *)
Theorem rerun_same_targets listing listing2 cfg r p p2 :
  valid_config cfg = true -> keep cfg = false ->
  r <> [] -> ~ In "."%char r ->
  NoDup (map name listing) ->
  (forall f, In f listing -> is_file f = true -> suffix (name f) = "."%char :: r) ->
  buil_rename_plan (Some listing) cfg = Ok p ->
  Permutation (map name (List.filter is_file listing2)) (map snd p) ->
  buil_rename_plan (Some listing2) cfg = Ok p2 ->
  map snd p2 = map snd p.
Proof.
  intros Hv Hk Hr Hd Hnd Hext Hb1 Hperm Hb2.
  unfold valid_config in Hv. rewrite !andb_true_iff in Hv.
  destruct Hv as [[[[[_ _] Hs] _] _] Hkn].
  unfold is_valid_start_index in Hs. apply Z.ltb_lt in Hs.
  unfold is_invalid_keep_no_number_combination in Hkn. rewrite Hk in Hkn. simpl in Hkn.
  apply negb_true_iff in Hkn.
  destruct (build_entries _ _ _ (nodup_names_filter is_file _ Hnd) Hb1) as (o1 & Hp1 & ->).
  assert (Ht1 : map snd (plan_entries cfg (start cfg) o1)
                = targets_from cfg ("."%char :: r) (start cfg) (length o1)).
  { apply plan_entries_targets; [assumption|assumption|lia|].
    intros f Hf. apply (Permutation_in f Hp1), filter_In in Hf as [Hf Hfile].
    apply Hext; assumption. }
  assert (Hnd2 : NoDup (map name (List.filter is_file listing2))).
  { rewrite Hperm. apply plan_entries_nodup; [assumption|assumption|lia]. }
  destruct (build_entries _ _ _ Hnd2 Hb2) as (o2 & Hp2 & ->).
  rewrite Ht1. rewrite (plan_entries_targets cfg ("."%char :: r)); [|assumption|assumption|lia|].
  - f_equal. apply Permutation_length in Hp2, Hperm.
    rewrite length_map, Ht1, targets_from_length in Hperm. lia.
  - intros f Hf. apply (targets_from_suffix cfg r (start cfg) (length o1)); [assumption|assumption|lia|].
    rewrite <- Ht1. apply (Permutation_in _ Hperm).
    apply (Permutation_in _ (Permutation_map name Hp2)). apply in_map, Hf.
Qed.

Lemma rerun_same_targets_witness :
  map snd [(py "1.txt", py "1.txt"); (py "2.txt", py "2.txt")]
  = map snd [(py "a.txt", py "1.txt"); (py "b.txt", py "2.txt")].
Proof.
  apply (rerun_same_targets [file "b.txt"; file "a.txt"] [file "2.txt"; file "1.txt"]
           cfg_base (py "txt")).
  - vm_compute. reflexivity.
  - reflexivity.
  - discriminate.
  - decide_it.
  - vm_compute. decide_it.
  - intros f Hf _. simpl in Hf. destruct Hf as [<-|[<-|[]]]; vm_compute; reflexivity.
  - vm_compute. reflexivity.
  - vm_compute. decide_it.
  - vm_compute. reflexivity.
Defined.

(** ** C8: storing and loading the plan *)

Example ex_json :
  save_rename_plan_json [(py "a b.txt", py "x/1.txt")]
  = py "{
  " ++ [dquote] ++ py "a b.txt" ++ [dquote] ++ py ": " ++ [dquote] ++ py "x/1.txt" ++ [dquote]
    ++ py "
}" /\
  path_str (py "//a/./b//") = py "//a/b" /\ path_str (py "///a") = py "/a" /\
  path_str [] = py "." /\
  load_rename_plan (save_rename_plan_json [(py "a b.txt", py "x/1.txt")])
  = Ok [(py "a b.txt", py "x/1.txt")].
Proof. vm_compute. repeat split. Qed.

Lemma scan_escape c rest :
  scan_string (json_escape_char c ++ rest) = cons_res c (scan_string rest).
Proof. destruct c as [[] [] [] [] [] [] [] []]; reflexivity. Qed.

Lemma scan_encoded s rest :
  scan_string (flat_map json_escape_char s ++ dquote :: rest) = Ok (s, rest).
Proof.
  induction s as [|c s IH]; [reflexivity|].
  simpl flat_map. rewrite <- app_assoc, scan_escape, IH. reflexivity.
Qed.

Lemma json_item_app k v Y :
  json_item (k, v) ++ Y
  = dquote :: flat_map json_escape_char k ++ dquote :: ":"%char :: " "%char :: dquote
      :: flat_map json_escape_char v ++ dquote :: Y.
Proof.
  unfold json_item, json_encode_string. simpl. rewrite <- !app_assoc. simpl.
  rewrite <- !app_assoc. reflexivity.
Qed.

Lemma parse_members_dump d acc fuel rest :
  d <> [] -> (length d <= fuel)%nat ->
  parse_members fuel
    (newline_indent ++ py_join (py "," ++ newline_indent) (map json_item d) ++ py "
}" ++ rest) acc
  = Ok (dict_build d acc, rest).
Proof.
  revert acc fuel; induction d as [|[k v] d IH]; intros acc fuel Hne Hf; [congruence|].
  destruct fuel as [|f]; [simpl in Hf; lia|].
  destruct d as [|kv' d'].
  - simpl map. cbn [py_join]. rewrite json_item_app.
    simpl. rewrite scan_encoded. simpl. rewrite scan_encoded. simpl. reflexivity.
  - set (d := kv' :: d') in *. 
    assert (E : py_join (py "," ++ newline_indent) (map json_item ((k, v) :: d))
                = json_item (k, v) ++ py "," ++ newline_indent
                    ++ py_join (py "," ++ newline_indent) (map json_item d))
      by (subst d; reflexivity).
    rewrite E, <- !app_assoc, json_item_app.
    simpl. rewrite scan_encoded. simpl. rewrite scan_encoded. simpl.
    apply IH; [subst d; discriminate|simpl in Hf |- *; lia].
Qed.

Lemma py_join_items_head sep k v d :
  exists Z, py_join sep (map json_item ((k, v) :: d)) = json_item (k, v) ++ Z.
Proof.
  destruct d as [|kv d]; [exists []; rewrite app_nil_r; reflexivity|].
  eexists. reflexivity.
Qed.

Lemma py_join_items_length sep d : (length d <= length (py_join sep (map json_item d)))%nat.
Proof.
  induction d as [|kv d IH]; [simpl; lia|].
  destruct d as [|kv' d].
  - unfold json_item, json_encode_string. simpl. lia.
  - change (py_join sep (map json_item (kv :: kv' :: d)))
      with (json_item kv ++ sep ++ py_join sep (map json_item (kv' :: d))).
    rewrite !length_app.
    assert (H1 : (1 <= length (json_item kv))%nat)
      by (unfold json_item, json_encode_string; simpl; lia).
    cbn [length] in IH |- *. lia.
Qed.

Lemma json_loads_dump d : json_loads (json_dump d) = Ok (dict_build d []).
Proof.
  destruct d as [|[k v] d']; [reflexivity|].
  destruct (py_join_items_head (py "," ++ newline_indent) k v d') as [Z HZ].
  pose (X := newline_indent ++ py_join (py "," ++ newline_indent) (map json_item ((k, v) :: d'))
              ++ py "
}").
  assert (Hd : json_dump ((k, v) :: d') = "{"%char :: X) by reflexivity.
  assert (HW : skip_ws X = dquote :: flat_map json_escape_char k ++ dquote :: ":"%char
      :: " "%char :: dquote :: flat_map json_escape_char v ++ dquote :: Z ++ py "
}").
  { unfold X. rewrite HZ, <- app_assoc, json_item_app. reflexivity. }
  unfold json_loads, parse_object. rewrite Hd.
  change (skip_ws ("{"%char :: X)) with ("{"%char :: X).
  change (code "{"%char =? 123) with true. cbv iota. rewrite HW.
  change (code dquote =? 125) with false. cbv iota.
  unfold X. rewrite <- (app_nil_r (py "
}")), parse_members_dump; [reflexivity|discriminate|].
  rewrite !length_app. pose proof (py_join_items_length (py "," ++ newline_indent) ((k, v) :: d')).
  lia.
Qed.

Lemma dict_build_nodup l acc :
  NoDup (map fst l) -> (forall x, In x (map fst l) -> ~ In x (map fst acc)) ->
  dict_build l acc = acc ++ l.
Proof.
  revert acc; induction l as [|[k v] l IH]; intros acc Hnd Hdis; simpl.
  - rewrite app_nil_r. reflexivity.
  - inversion Hnd as [|? ? Hnin Hnd']; subst. rewrite list_elem_of_In in Hnin.
    rewrite dict_set_new by (apply Hdis; left; reflexivity).
    rewrite IH; [rewrite <- app_assoc; reflexivity|exact Hnd'|].
    intros x Hx. rewrite map_app. simpl. rewrite in_app_iff. intros [Ha|[<-|[]]].
    + exact (Hdis x (or_intror Hx) Ha).
    + exact (Hnin Hx).
Qed.

Lemma split_slash_noslash s :
  Forall (fun p => Forall (fun c => is_slash c = false) p) (split_slash s).
Proof.
  induction s as [|c s IH]; simpl; [repeat constructor|].
  destruct (is_slash c) eqn:Hc; [constructor; [constructor|exact IH]|].
  destruct (split_slash s) as [|p ps]; [repeat constructor; exact Hc|].
  inversion IH; subst. constructor; [constructor; assumption|assumption].
Qed.

Lemma split_slash_app p rest :
  Forall (fun c => is_slash c = false) p ->
  split_slash (p ++ slash :: rest) = p :: split_slash rest.
Proof.
  intros Hp. induction Hp as [|c p Hc _ IH]; [reflexivity|].
  simpl. rewrite IH, Hc. reflexivity.
Qed.

Lemma split_slash_single p :
  Forall (fun c => is_slash c = false) p -> split_slash p = [p].
Proof.
  intros Hp. induction Hp as [|c p Hc _ IH]; [reflexivity|].
  simpl. rewrite IH, Hc. reflexivity.
Qed.

Lemma split_slash_join parts :
  parts <> [] -> Forall (fun p => Forall (fun c => is_slash c = false) p) parts ->
  split_slash (py_join [slash] parts) = parts.
Proof.
  intros Hne Hp. induction Hp as [|p ps Hp0 Hps IH]; [congruence|].
  destruct ps as [|q qs].
  - apply split_slash_single, Hp0.
  - change (py_join [slash] (p :: q :: qs)) with (p ++ slash :: py_join [slash] (q :: qs)).
    rewrite split_slash_app by exact Hp0. rewrite IH by discriminate. reflexivity.
Qed.

Lemma filter_keep_all parts :
  Forall (fun p => keep_part p = true) parts -> List.filter keep_part parts = parts.
Proof. induction 1 as [|p ps Hp _ IH]; simpl; [reflexivity|]. rewrite Hp, IH. reflexivity. Qed.

Lemma keep_part_nonempty p : keep_part p = true -> p <> [].
Proof. unfold keep_part. intros H ->. discriminate. Qed.

Lemma path_parts_props rel :
  Forall (fun p => keep_part p = true /\ Forall (fun c => is_slash c = false) p) (path_parts rel).
Proof.
  unfold path_parts. pose proof (split_slash_noslash rel) as H.
  induction H as [|p ps Hp _ IH]; simpl; [constructor|].
  destruct (keep_part p) eqn:E; [constructor; [split; assumption|exact IH]|exact IH].
Qed.

Lemma join_head parts :
  Forall (fun p => keep_part p = true /\ Forall (fun c => is_slash c = false) p) parts ->
  py_join [slash] parts = [] \/
  exists c r, py_join [slash] parts = c :: r /\ is_slash c = false.
Proof.
  intros H. destruct H as [|p ps [Hk Hs] _]; [left; reflexivity|right].
  destruct p as [|c p]; [exfalso; exact (keep_part_nonempty _ Hk eq_refl)|].
  inversion Hs; subst. destruct ps as [|q qs]; [exists c, p; auto|].
  exists c, (p ++ [slash] ++ py_join [slash] (q :: qs)). auto.
Qed.

Lemma path_parts_join parts :
  Forall (fun p => keep_part p = true /\ Forall (fun c => is_slash c = false) p) parts ->
  path_parts (py_join [slash] parts) = parts.
Proof.
  intros H. unfold path_parts. destruct parts as [|p ps]; [reflexivity|].
  rewrite split_slash_join; [|discriminate|].
  - apply filter_keep_all. eapply Forall_impl; [exact H|]. intros x [Hx _]. exact Hx.
  - eapply Forall_impl; [exact H|]. intros x [_ Hx]. exact Hx.
Qed.

Lemma splitroot_cases p :
  (splitroot p).1 = [] \/ (splitroot p).1 = [slash] \/ (splitroot p).1 = [slash; slash].
Proof.
  unfold splitroot. destruct p as [|c r]; [auto|].
  destruct (is_slash c); [|auto]. destruct r as [|c2 r2]; [auto|].
  destruct (is_slash c2); [|auto]. destruct r2 as [|c3 r3]; [auto|].
  destruct (is_slash c3); auto.
Qed.

Lemma splitroot_join root j :
  (root = [] \/ root = [slash] \/ root = [slash; slash]) ->
  (j = [] \/ exists c r, j = c :: r /\ is_slash c = false) ->
  splitroot (root ++ j) = (root, j).
Proof.
  intros Hr Hj. destruct Hj as [ -> | (c & r & -> & Hc)];
    destruct Hr as [ -> | [ -> | -> ] ]; simpl; try rewrite Hc; reflexivity.
Qed.

Lemma path_str_idem s : path_str (path_str s) = path_str s.
Proof.
  destruct (splitroot s) as [root rel] eqn:Hs.
  pose proof (splitroot_cases s) as Hr. rewrite Hs in Hr. simpl in Hr.
  pose proof (path_parts_props rel) as Hp.
  assert (Hps : path_str s = let t := root ++ py_join [slash] (path_parts rel) in
                             if str_eqb t [] then py "." else t)
    by (unfold path_str; rewrite Hs; reflexivity).
  rewrite Hps. cbv zeta.
  destruct (str_eqb (root ++ py_join [slash] (path_parts rel)) []) eqn:E.
  - reflexivity.
  - unfold path_str at 1. rewrite splitroot_join by (exact Hr || apply join_head, Hp).
    fold (path_parts (py_join [slash] (path_parts rel))). rewrite path_parts_join by exact Hp.
    rewrite E. reflexivity.
Qed.

Lemma map_path_str_fixed (plan : list (pystr * pystr)) :
  Forall (fun kv => path_str (fst kv) = fst kv /\ path_str (snd kv) = snd kv) plan ->
  map (fun kv => (path_str (fst kv), path_str (snd kv))) plan = plan.
Proof.
  induction 1 as [|[k v] l [Hk Hv] _ IH]; simpl in *; [reflexivity|].
  rewrite Hk, Hv, IH. reflexivity.
Qed.

(** C8: storing a plan with [save_rename_plan_json] and loading it back as
    [cli.py] does gives the same mapping, same strings in the same order,
    for every plan of path strings with distinct keys; the path strings are
    those of [Path] values, which [str(Path(.))] leaves unchanged (it is
    idempotent). *)
Theorem plan_json_roundtrip plan :
  NoDup (map fst plan) ->
  Forall (fun kv => path_str (fst kv) = fst kv /\ path_str (snd kv) = snd kv) plan ->
  load_rename_plan (save_rename_plan_json plan) = Ok plan /\
  (forall s, path_str (path_str s) = path_str s).
Proof.
  intros Hnd Hfix. split; [|exact path_str_idem].
  assert (Hb : dict_build plan [] = plan) by (apply dict_build_nodup; [exact Hnd|intros ? ? []]).
  unfold load_rename_plan, save_rename_plan_json. rewrite Hb, json_loads_dump, Hb.
  rewrite map_path_str_fixed by exact Hfix. rewrite Hb. reflexivity.
Qed.

Lemma plan_json_roundtrip_witness :
  load_rename_plan (save_rename_plan_json
    [(py "a.txt", py "dir/1.txt"); (py "/tmp/b c.txt", py "dir/2.txt")])
  = Ok [(py "a.txt", py "dir/1.txt"); (py "/tmp/b c.txt", py "dir/2.txt")].
Proof.
  apply (plan_json_roundtrip [(py "a.txt", py "dir/1.txt"); (py "/tmp/b c.txt", py "dir/2.txt")]);
    decide_it.
Defined.

(** ** Further properties: the string order and the sorts *)

Lemma code_inj x y : code x = code y -> x = y.
Proof.
  unfold code. intros H. apply Nat2Z.inj in H.
  rewrite <- (ascii_nat_embedding x), <- (ascii_nat_embedding y), H. reflexivity.
Qed.

Lemma str_lt_asym a b : str_lt a b = true -> str_lt b a = false.
Proof.
  revert b; induction a as [|x a IH]; intros [|y b]; simpl; try congruence.
  destruct (code x <? code y) eqn:E1; destruct (code y <? code x) eqn:E2;
    apply Z.ltb_lt in E1 || apply Z.ltb_ge in E1;
    apply Z.ltb_lt in E2 || apply Z.ltb_ge in E2; try lia; auto.
Qed.


Lemma str_lt_trans a b c : str_lt a b = true -> str_lt b c = true -> str_lt a c = true.
Proof.
  revert b c; induction a as [|x a IH]; intros [|y b] [|z c]; simpl; try congruence.
  destruct (code x <? code y) eqn:E1; destruct (code y <? code x) eqn:E2;
  destruct (code y <? code z) eqn:E3; destruct (code z <? code y) eqn:E4;
  destruct (code x <? code z) eqn:E5; destruct (code z <? code x) eqn:E6;
  rewrite ?Z.ltb_lt, ?Z.ltb_ge in *; try lia; try congruence; eauto.
Qed.

Lemma str_lt_total a b : a <> b -> str_lt b a = false -> str_lt a b = true.
Proof.
  revert b; induction a as [|x a IH]; intros [|y b]; simpl; try congruence.
  intros Hne.
  destruct (code x <? code y) eqn:E1; destruct (code y <? code x) eqn:E2;
    rewrite ?Z.ltb_lt, ?Z.ltb_ge in *; try lia; try congruence.
  assert (x = y) as -> by (apply code_inj; lia).
  intros H. apply IH; [congruence|exact H].
Qed.

Section LtSort.
  Context {A : Type} (lt : A -> A -> bool).
  Hypothesis lt_asym : forall x y, lt x y = true -> lt y x = false.

Lemma insert_sorted_le x l :
    Sorted (fun a b => lt b a = false) l ->
    Sorted (fun a b => lt b a = false) (insert_sorted lt x l).
  Proof.
    induction l as [|y l IH]; simpl; intros Hs; [repeat constructor|].
    destruct (lt y x) eqn:E.
    - inversion Hs as [|? ? Hl Hh]; subst. constructor; [auto|].
      destruct l as [|z l]; simpl; [constructor; apply lt_asym, E|].
      destruct (lt z x); constructor; [inversion Hh; assumption|apply lt_asym, E].
    - constructor; [exact Hs|constructor; exact E].
  Qed.

  (** [sorted] with an asymmetric [<] returns a list in which no element
      is smaller than the one before it. *)
Lemma sort_by_le l : Sorted (fun a b => lt b a = false) (sort_by lt l).
  Proof. induction l; simpl; [constructor|apply insert_sorted_le; assumption]. Qed.
End LtSort.

Lemma strongly_sorted_perm_eq {A} (R : A -> A -> Prop) l1 l2 :
  (forall x y, R x y -> R y x -> False) ->
  StronglySorted R l1 -> StronglySorted R l2 -> Permutation l1 l2 -> l1 = l2.
Proof.
  intros Hasym. revert l2; induction l1 as [|x r1 IH]; intros l2 H1 H2 Hp.
  - symmetry. apply Permutation_nil, Hp.
  - destruct l2 as [|y r2]; [apply Permutation_sym, Permutation_nil in Hp; discriminate|].
    apply StronglySorted_inv in H1 as [H1 F1]. apply StronglySorted_inv in H2 as [H2 F2].
    assert (x = y) as <-.
    { assert (Hx : In x (y :: r2)) by (apply (Permutation_in _ Hp); left; reflexivity).
      destruct Hx as [->|Hx]; [reflexivity|].
      assert (Ryx : R y x) by (rewrite List.Forall_forall in F2; auto).
      assert (Hy : In y (x :: r1))
        by (apply (Permutation_in _ (Permutation_sym Hp)); left; reflexivity).
      destruct Hy as [->|Hy]; [exfalso; exact (Hasym _ _ Ryx Ryx)|].
      assert (Rxy : R x y) by (rewrite List.Forall_forall in F1; auto).
      exfalso. exact (Hasym _ _ Rxy Ryx). }
    f_equal. apply IH; [exact H1|exact H2|]. apply Permutation_cons_inv in Hp. exact Hp.
Qed.

Lemma sorted_name_strict l :
  Sorted (fun a b => name_lt b a = false) l -> NoDup (map name l) ->
  StronglySorted (fun a b => name_lt a b = true) l.
Proof.
  intros Hs Hn. apply Sorted_StronglySorted.
  { intros a b c. unfold name_lt. apply str_lt_trans. }
  induction Hs as [|x l Hl IH Hh]; [constructor|].
  inversion Hn as [|? ? Hx Hn']; subst. constructor; [auto|].
  destruct Hh as [|y l' Hxy]; constructor.
  unfold name_lt in *. apply str_lt_total; [|exact Hxy].
  intros E. apply Hx. rewrite E. left.
Qed.

Lemma sort_files_name l : sort_files l (py "name") = Ok (sort_by name_lt l).
Proof. reflexivity. Qed.

Lemma filter_perm {A} (f : A -> bool) l1 l2 :
  Permutation l1 l2 -> Permutation (List.filter f l1) (List.filter f l2).
Proof.
  induction 1 as [|x l1 l2 _ IH|x y l|l1 l2 l3 _ IH1 _ IH2]; simpl.
  - constructor.
  - destruct (f x); [constructor|]; exact IH.
  - destruct (f x), (f y); try constructor; reflexivity.
  - etransitivity; eassumption.
Qed.



(** X2: by ["mtime"] (and by ["ctime"]) [sort_files] returns a permutation
    of its input in non-decreasing order of the time, and files with the
    same time keep their input order. *)
Theorem sort_files_by_time l :
  (exists r, sort_files l (py "mtime") = Ok r /\ Permutation r l /\
     Sorted (fun a b => mtime a <= mtime b) r /\
     forall k, List.filter (fun x => mtime x =? k) r = List.filter (fun x => mtime x =? k) l) /\
  (exists r, sort_files l (py "ctime") = Ok r /\ Permutation r l /\
     Sorted (fun a b => ctime a <= ctime b) r /\
     forall k, List.filter (fun x => ctime x =? k) r = List.filter (fun x => ctime x =? k) l).
Proof.
  split.
  - exists (sort_by (key_lt mtime) l). split; [reflexivity|].
    split; [apply sort_by_perm|]. split; [apply sort_by_sorted|].
    intros k. apply (filter_key_sort mtime k l).
  - exists (sort_by (key_lt ctime) l). split; [reflexivity|].
    split; [apply sort_by_perm|]. split; [apply sort_by_sorted|].
    intros k. apply (filter_key_sort ctime k l).
Qed.

(** X3: by ["name"] [sort_files] returns a permutation of its input in
    which no name is smaller (code-point order) than the one before it;
    with distinct names the names strictly increase. *)
Theorem sort_files_by_name l :
  exists r, sort_files l (py "name") = Ok r /\ Permutation r l /\
    Sorted (fun a b => str_lt (name b) (name a) = false) r /\
    (NoDup (map name l) -> StronglySorted (fun a b => str_lt (name a) (name b) = true) r).
Proof.
  exists (sort_by name_lt l). split; [apply sort_files_name|].
  split; [apply sort_by_perm|].
  assert (Hs : Sorted (fun a b => name_lt b a = false) (sort_by name_lt l)).
  { apply sort_by_le. intros x y. unfold name_lt. apply str_lt_asym. }
  split; [exact Hs|]. intros Hn.
  apply sorted_name_strict; [exact Hs|].
  pose proof (Permutation_map name (sort_by_perm name_lt l)) as Hp. rewrite Hp. exact Hn.
Qed.

(** X4: with [order = "name"] the plan does not depend on the order in
    which [Path.iterdir] lists the directory (its names being distinct). *)
Theorem plan_ignores_listing_order l1 l2 cfg :
  order cfg = py "name" -> NoDup (map name l1) -> Permutation l1 l2 ->
  buil_rename_plan (Some l1) cfg = buil_rename_plan (Some l2) cfg.
Proof.
  intros Ho Hn Hp. unfold buil_rename_plan. rewrite Ho, !sort_files_name.
  assert (Hss : forall l, NoDup (map name l) ->
            StronglySorted (fun a b => name_lt a b = true)
              (sort_by name_lt (List.filter is_file l))).
  { intros l Hl. apply sorted_name_strict.
    - apply sort_by_le. intros x y. unfold name_lt. apply str_lt_asym.
    - pose proof (Permutation_map name (sort_by_perm name_lt (List.filter is_file l))) as Hq.
      rewrite Hq. apply nodup_names_filter, Hl. }
  do 2 f_equal. apply strongly_sorted_perm_eq with (R := fun a b => name_lt a b = true).
  - intros x y H1 H2. unfold name_lt in *. rewrite (str_lt_asym _ _ H1) in H2. discriminate.
  - apply Hss, Hn.
  - apply Hss. pose proof (Permutation_map name Hp) as Hq. rewrite <- Hq. exact Hn.
  - rewrite !sort_by_perm. apply filter_perm, Hp.
Qed.

Lemma plan_ignores_listing_order_witness :
  buil_rename_plan (Some [file "b.txt"; file "a.txt"]) cfg_base
  = buil_rename_plan (Some [file "a.txt"; file "b.txt"]) cfg_base.
Proof.
  apply plan_ignores_listing_order; [reflexivity|decide_it|apply perm_swap].
Defined.

(** ** Further properties: the target names *)



















(** ** Further properties: the plan and its targets *)




Lemma py_join_class (P : ascii -> Prop) sep parts :
  Forall P sep -> Forall (Forall P) parts -> Forall P (py_join sep parts).
Proof.
  intros Hs. induction 1 as [|p ps Hp Hps IH]; simpl; [constructor|].
  destruct ps; [exact Hp|]. apply Forall_app. split; [exact Hp|].
  apply Forall_app. split; [exact Hs|exact IH].
Qed.





(** X12: with distinct listed names, the keys of the plan are exactly the
    regular files of the listing, each once: sub-directories and other
    entries are never renamed, and no regular file is left out. *)
Theorem plan_keys_are_files listing cfg p :
  NoDup (map name listing) ->
  buil_rename_plan (Some listing) cfg = Ok p ->
  Permutation (map fst p) (map name (List.filter is_file listing)) /\ NoDup (map fst p).
Proof.
  intros Hn Hb.
  pose proof (nodup_names_filter is_file listing Hn) as Hnf.
  destruct (build_entries listing cfg p Hnf Hb) as (ordered & Hp & ->).
  rewrite plan_entries_fst. split; [apply Permutation_map, Hp|].
  pose proof (Permutation_map name Hp) as Hq. rewrite Hq. exact Hnf.
Qed.

Lemma plan_keys_are_files_witness :
  exists p, buil_rename_plan (Some mixed_listing) cfg_base = Ok p /\
    Permutation (map fst p) (map name (List.filter is_file mixed_listing)) /\
    NoDup (map fst p).
Proof.
  eexists. split; [reflexivity|].
  apply (plan_keys_are_files mixed_listing cfg_base); [decide_it|reflexivity].
Defined.


(** ** Further properties: the runner *)

Lemma size_list_to_set_le (l : list path) : (size (list_to_set l : gset path) <= length l)%nat.
Proof.
  induction l as [|x r IH]; [rewrite list_to_set_nil, size_empty; simpl; lia|simpl].
  rewrite size_union_alt, size_singleton.
  assert (H : (size (list_to_set r ∖ {[x]} : gset path) <= size (list_to_set r : gset path))%nat)
    by (apply subseteq_size; set_solver).
  lia.
Qed.

Lemma size_list_to_set_dup (l : list path) :
  ~ NoDup l -> (size (list_to_set l : gset path) < length l)%nat.
Proof.
  induction l as [|x r IH]; intros Hn; [destruct Hn; constructor|].
  simpl. destruct (decide (x ∈ r)) as [Hx|Hx].
  - rewrite subseteq_union_1_L by (apply singleton_subseteq_l, elem_of_list_to_set, Hx).
    pose proof (size_list_to_set_le r). lia.
  - assert (Hr : ~ NoDup r) by (intros Hr; apply Hn; constructor; assumption).
    rewrite size_union_alt, size_singleton.
    assert (H : (size (list_to_set r ∖ {[x]} : gset path) <= size (list_to_set r : gset path))%nat)
      by (apply subseteq_size; set_solver).
    specialize (IH Hr). lia.
Qed.

(** Renames with distinct sources, present when they run, and targets that
    are no source: the sources leave the directory and the targets enter
    it, even when two renames share a target. *)
Lemma seq_rename_dom fs ps :
  NoDup (map fst ps) -> (forall x, In x (map snd ps) -> ~ In x (map fst ps)) ->
  (forall x, In x (map fst ps) -> is_Some (fs !! x)) ->
  dom (seq_rename fs ps) = (dom fs ∖ list_to_set (map fst ps)) ∪ list_to_set (map snd ps).
Proof.
  revert fs; induction ps as [|[s d] r IH]; intros fs Hs Hdis Hpres; simpl in *.
  - set_solver.
  - inversion Hs as [|? ? Hs0 Hs']; subst. rewrite list_elem_of_In in Hs0.
    destruct (Hpres s (or_introl eq_refl)) as [f Hf]. rewrite Hf.
    assert (Hd : ~ In d (map fst r)) by (intros H; apply (Hdis d); auto).
    rewrite IH.
    + rewrite dom_insert_L, dom_delete_L.
      assert (Hd' : d ∉ (list_to_set (map fst r) : gset path))
        by (rewrite elem_of_list_to_set, list_elem_of_In; exact Hd).
      set_solver.
    + exact Hs'.
    + intros x Hx Hx'. apply (Hdis x); auto.
    + intros x Hx. rewrite lookup_insert_is_Some.
      destruct (decide (d = x)) as [|Hne]; [left; assumption|]. right. split; [exact Hne|].
      rewrite lookup_delete_is_Some. split; [intros ->; contradiction|]. apply Hpres. auto.
Qed.

(** X8: when two keys of the plan have the same target, [rename_run] with
    POSIX [rename] (which replaces an existing target) reports success,
    yet the directory ends with only the distinct targets and strictly
    fewer files than it had: one file has been overwritten. *)
Theorem colliding_targets_lose_files u plan w :
  let keys := map fst plan in
  let values := map snd plan in
  let temps := temps_of u (drawn w) plan in
  NoDup keys -> dom (files w) = (list_to_set keys : gset path) ->
  NoDup temps -> (forall t, In t temps -> ~ In t keys /\ ~ In t values) ->
  ~ NoDup values ->
  exists w', rename_run posix_rename u plan w = (w', Ok tt) /\
    dom (files w') = (list_to_set values : gset path) /\
    (size (files w') < size (files w))%nat.
Proof.
  intros keys values temps Hk Hdom Ht Hf Hv.
  assert (Hpres : forall x, In x keys -> is_Some (files w !! x)).
  { intros x Hx. apply elem_of_dom. rewrite Hdom, elem_of_list_to_set, list_elem_of_In.
    exact Hx. }
  assert (Hstage : stage posix_rename u plan [] w =
            (mkWorld (seq_rename (files w) (stage_moves u (drawn w) plan))
                     (drawn w + length plan)%nat, Ok (commit_moves u (drawn w) plan))).
  { rewrite stage_posix; [reflexivity|exact Hk|exact Hpres|exact Ht|intros ? ? []]. }
  assert (Hmid : dom (seq_rename (files w) (stage_moves u (drawn w) plan))
                 = (list_to_set temps : gset path)).
  { rewrite seq_rename_dom; rewrite ?stage_moves_fst, ?stage_moves_snd.
    - rewrite Hdom. fold keys temps. set_solver.
    - exact Hk.
    - intros x Hx. apply Hf, Hx.
    - exact Hpres. }
  set (fs1 := seq_rename (files w) (stage_moves u (drawn w) plan)) in *.
  assert (Hcommit : commit posix_rename (commit_moves u (drawn w) plan)
                      (mkWorld fs1 (drawn w + length plan)%nat)
                    = (mkWorld (seq_rename fs1 (commit_moves u (drawn w) plan))
                               (drawn w + length plan)%nat, Ok tt)).
  { rewrite commit_posix; rewrite ?commit_moves_fst; [reflexivity|exact Ht|].
    intros x Hx. apply elem_of_dom. simpl. rewrite Hmid, elem_of_list_to_set, list_elem_of_In.
    exact Hx. }
  eexists. split.
  { unfold rename_run, mbind, io_bind. rewrite Hstage. exact Hcommit. }
  assert (Hend : dom (seq_rename fs1 (commit_moves u (drawn w) plan))
                 = (list_to_set values : gset path)).
  { rewrite seq_rename_dom; rewrite ?commit_moves_fst, ?commit_moves_snd.
    - rewrite Hmid. fold values temps. set_solver.
    - exact Ht.
    - intros x Hx Hx'. apply (Hf x Hx'), Hx.
    - intros x Hx. apply elem_of_dom. rewrite Hmid, elem_of_list_to_set, list_elem_of_In.
      exact Hx. }
  split; [exact Hend|]. simpl.
  rewrite <- !size_dom, Hend, Hdom, (size_list_to_set (C:=gset path) keys Hk).
  pose proof (size_list_to_set_dup values Hv) as Hs.
  unfold values, keys in *. rewrite !length_map in *. exact Hs.
Qed.

Lemma colliding_targets_lose_files_witness :
  exists w', rename_run posix_rename hex_supply collide_plan swap_dir = (w', Ok tt) /\
    dom (files w') = (list_to_set (map snd collide_plan) : gset path) /\
    (size (files w') < size (files swap_dir))%nat.
Proof.
  apply (colliding_targets_lose_files hex_supply collide_plan swap_dir).
  - decide_it.
  - decide_it.
  - decide_it.
  - fresh_it.
  - decide_it.
Defined.


(** ** Further properties: the backup file *)

Lemma json_escape_char_safe c : forallb json_safe (json_escape_char c) = true.
Proof. destruct c as [[] [] [] [] [] [] [] []]; reflexivity. Qed.

Lemma json_encode_string_safe s : Forall (fun c => json_safe c = true) (json_encode_string s).
Proof.
  unfold json_encode_string. constructor; [reflexivity|]. apply Forall_app. split.
  - induction s as [|c s IH]; simpl; [constructor|]. apply Forall_app. split; [|exact IH].
    apply List.Forall_forall. intros x Hx. pose proof (json_escape_char_safe c) as H.
    rewrite forallb_forall in H. apply H, Hx.
  - repeat constructor.
Qed.

(** X9: the backup text written by [save_rename_plan_json] consists of
    printable ASCII characters and newlines only: [json.dump] with its
    default [ensure_ascii] escapes every other character. *)
Theorem save_rename_plan_json_ascii plan :
  Forall (fun c => 32 <= code c <= 126 \/ code c = 10) (save_rename_plan_json plan).
Proof.
  assert (H : Forall (fun c => json_safe c = true) (save_rename_plan_json plan)).
  { unfold save_rename_plan_json, json_dump. destruct (dict_build plan []) as [|kv d].
    - repeat constructor.
    - constructor; [reflexivity|]. apply Forall_app. split; [repeat constructor|].
      apply Forall_app. split; [|repeat constructor].
      apply py_join_class; [repeat constructor|]. apply Forall_map.
      apply List.Forall_forall. intros [k v] _. unfold json_item. cbn [fst snd].
      apply Forall_app. split; [apply json_encode_string_safe|].
      apply Forall_app. split; [repeat constructor|apply json_encode_string_safe]. }
  eapply Forall_impl; [exact H|]. intros c Hc. unfold json_safe in Hc.
  apply orb_true_iff in Hc as [Hc|Hc].
  - apply andb_true_iff in Hc as [H1 H2]. apply Z.leb_le in H1, H2. left. lia.
  - apply Z.eqb_eq in Hc. right. exact Hc.
Qed.

(** ** Further properties: the command line *)

Lemma map_path_str_swap (plan : list (pystr * pystr)) :
  path_fixed plan ->
  map (fun kv => (path_str (snd kv), path_str (fst kv))) plan = map swap_pair plan.
Proof.
  induction 1 as [|[k v] l [Hk Hv] _ IH]; simpl in *; [reflexivity|].
  rewrite Hk, Hv, IH. reflexivity.
Qed.

Lemma path_fixed_swap plan : path_fixed plan -> path_fixed (map swap_pair plan).
Proof.
  unfold path_fixed. intros H. apply Forall_map. eapply Forall_impl; [exact H|].
  intros [k v] [Hk Hv]. simpl. auto.
Qed.

Lemma save_load_text p :
  NoDup (map fst p) -> json_loads (save_rename_plan_json p) = Ok p.
Proof.
  intros Hnd.
  assert (Hb : dict_build p [] = p) by (apply dict_build_nodup; [exact Hnd|intros ? ? []]).
  unfold save_rename_plan_json. rewrite Hb, json_loads_dump, Hb. reflexivity.
Qed.

(** One [--reverse-run] on a backup holding [p], with the renamed files in
    place: each key gets back the file of its value, and the backup then
    holds the inverse plan. *)
Lemma cli_reverse_step u p q s :
  let w := cli_world s in
  NoDup (map fst p) -> NoDup (map snd p) -> path_fixed p ->
  backup s = Some (save_rename_plan_json p) ->
  dom (files w) = (list_to_set (map snd p) : gset path) ->
  NoDup (temps_of u (drawn w) (map swap_pair p)) ->
  (forall t, In t (temps_of u (drawn w) (map swap_pair p)) ->
     ~ In t (map fst p) /\ ~ In t (map snd p)) ->
  exists s',
    cli_run_tail posix_rename u (Ok q) false true s = (s', Ok tt) /\
    (forall k v, In (k, v) p -> files (cli_world s') !! k = files w !! v) /\
    dom (files (cli_world s')) = (list_to_set (map fst p) : gset path) /\
    drawn (cli_world s') = (drawn w + length p)%nat /\
    backup s' = Some (save_rename_plan_json (map swap_pair p)) /\
    printed s' = printed s.
Proof.
  intros w Hk Hv Hfix Hb Hdom Ht Hf.
  assert (Hrev := rename_run_posix_spec u (map swap_pair p) w).
  rewrite map_fst_swap, map_snd_swap in Hrev.
  destruct (Hrev Hv Hk Hdom Ht) as (_ & w' & _ & _ & _ & _ & Hrun & Hdrawn & Hlook & Hdom').
  { intros t Hin. destruct (Hf t Hin). auto. }
  clear Hrev. rewrite length_map in Hdrawn.
  assert (Hsw : dict_build (map swap_pair p) [] = map swap_pair p).
  { apply dict_build_nodup; [rewrite map_fst_swap; exact Hv|intros ? ? []]. }
  assert (Hp : dict_build p [] = p) by (apply dict_build_nodup; [exact Hk|intros ? ? []]).
  eexists. split.
  - unfold cli_run_tail, mbind, cli_bind, read_backup. rewrite Hb.
    rewrite save_load_text by exact Hk.
    rewrite map_path_str_fixed by exact Hfix. rewrite map_path_str_swap by exact Hfix.
    rewrite Hp, Hsw. unfold on_files. rewrite reverse_rename_run_swap.
    fold w. rewrite Hrun. reflexivity.
  - simpl. split; [|split; [exact Hdom'|split; [exact Hdrawn|split; reflexivity]]].
    intros k v Hin. apply Hlook. apply in_swap, Hin.
Qed.

Lemma files_eq_on (fs1 fs2 : gmap path Z) (l : list path) :
  dom fs1 = (list_to_set l : gset path) -> dom fs2 = (list_to_set l : gset path) ->
  (forall x, In x l -> fs1 !! x = fs2 !! x) -> fs1 = fs2.
Proof.
  intros H1 H2 H. apply map_eq. intros x. destruct (decide (In x l)) as [Hx|Hx]; [auto|].
  assert (Hn1 : x ∉ dom fs1) by (rewrite H1, elem_of_list_to_set, list_elem_of_In; exact Hx).
  assert (Hn2 : x ∉ dom fs2) by (rewrite H2, elem_of_list_to_set, list_elem_of_In; exact Hx).
  apply not_elem_of_dom in Hn1, Hn2. rewrite Hn1, Hn2. reflexivity.
Qed.

(** X10: from a directory holding exactly the keys of a plan with distinct
    keys and distinct values, the forward tail of [cli_run] renames each
    key to its value and writes the plan as the backup; a following run
    with [--reverse] reads that backup, renames the files back, restores
    the directory exactly and overwrites the backup with the inverse plan. *)
Theorem cli_rename_then_reverse u plan q s :
  let w := cli_world s in
  let keys := map fst plan in
  let values := map snd plan in
  let temps1 := temps_of u (drawn w) plan in
  let temps2 := temps_of u (drawn w + length plan)%nat (map swap_pair plan) in
  NoDup keys -> NoDup values -> path_fixed plan ->
  dom (files w) = (list_to_set keys : gset path) ->
  NoDup temps1 -> (forall t, In t temps1 -> ~ In t keys /\ ~ In t values) ->
  NoDup temps2 -> (forall t, In t temps2 -> ~ In t keys /\ ~ In t values) ->
  exists s1 s2,
    cli_run_tail posix_rename u (Ok plan) false false s = (s1, Ok tt) /\
    (forall k v, In (k, v) plan -> files (cli_world s1) !! v = files w !! k) /\
    backup s1 = Some (save_rename_plan_json plan) /\
    cli_run_tail posix_rename u (Ok q) false true s1 = (s2, Ok tt) /\
    files (cli_world s2) = files w /\
    backup s2 = Some (save_rename_plan_json (map swap_pair plan)).
Proof.
  intros w keys values temps1 temps2 Hk Hv Hfix Hdom Ht1 Hf1 Ht2 Hf2.
  destruct (rename_run_posix_spec u plan w Hk Hv Hdom Ht1 Hf1)
    as (_ & w1 & _ & _ & _ & _ & Hrun & Hdrawn & Hlook & Hdom1).
  set (s1 := mkCli w1 (Some (save_rename_plan_json plan)) (printed s)).
  assert (Hs1 : cli_run_tail posix_rename u (Ok plan) false false s = (s1, Ok tt)).
  { unfold cli_run_tail, mbind, cli_bind, on_files. fold w. rewrite Hrun. reflexivity. }
  destruct (cli_reverse_step u plan q s1 Hk Hv Hfix eq_refl Hdom1) as (s2 & Hs2 & Hl2 & Hd2 & _ & Hb2 & _).
  { simpl. rewrite Hdrawn. exact Ht2. }
  { simpl. rewrite Hdrawn. exact Hf2. }
  exists s1, s2. split; [exact Hs1|]. split; [exact Hlook|]. split; [reflexivity|].
  split; [exact Hs2|]. split; [|exact Hb2].
  apply (files_eq_on _ _ keys Hd2 Hdom). intros x Hx.
  destruct (in_map_fst_pair x plan Hx) as [v Hin].
  rewrite (Hl2 x v Hin). simpl. apply Hlook, Hin.
Qed.

(** X11: two successive [--reverse] runs from a backup of a plan give back
    the directory exactly and the original backup text: the first applies
    the inverse of the plan and stores that inverse, the second inverts it
    again. *)
Theorem cli_reverse_twice u p q1 q2 s :
  let w := cli_world s in
  let keys := map fst p in
  let values := map snd p in
  let temps1 := temps_of u (drawn w) (map swap_pair p) in
  let temps2 := temps_of u (drawn w + length p)%nat p in
  NoDup keys -> NoDup values -> path_fixed p ->
  backup s = Some (save_rename_plan_json p) ->
  dom (files w) = (list_to_set values : gset path) ->
  NoDup temps1 -> (forall t, In t temps1 -> ~ In t keys /\ ~ In t values) ->
  NoDup temps2 -> (forall t, In t temps2 -> ~ In t keys /\ ~ In t values) ->
  exists s1 s2,
    cli_run_tail posix_rename u (Ok q1) false true s = (s1, Ok tt) /\
    (forall k v, In (k, v) p -> files (cli_world s1) !! k = files w !! v) /\
    backup s1 = Some (save_rename_plan_json (map swap_pair p)) /\
    cli_run_tail posix_rename u (Ok q2) false true s1 = (s2, Ok tt) /\
    files (cli_world s2) = files w /\
    backup s2 = backup s.
Proof.
  intros w keys values temps1 temps2 Hk Hv Hfix Hb Hdom Ht1 Hf1 Ht2 Hf2.
  destruct (cli_reverse_step u p q1 s Hk Hv Hfix Hb Hdom Ht1 Hf1)
    as (s1 & Hs1 & Hl1 & Hd1 & Hdr1 & Hb1 & _).
  assert (Hrev := cli_reverse_step u (map swap_pair p) q2 s1).
  cbv zeta in Hrev. rewrite map_fst_swap, map_snd_swap, map_swap_swap, Hdr1 in Hrev.
  destruct (Hrev Hv Hk (path_fixed_swap p Hfix) Hb1 Hd1 Ht2) as (s2 & Hs2 & Hl2 & Hd2 & _ & Hb2 & _).
  { intros t Ht. destruct (Hf2 t Ht). auto. }
  exists s1, s2. split; [exact Hs1|]. split; [exact Hl1|]. split; [exact Hb1|].
  split; [exact Hs2|]. split.
  - apply (files_eq_on _ _ values Hd2 Hdom). intros x Hx.
    destruct (in_map_snd_pair x p Hx) as [k Hin].
    rewrite (Hl2 x k (in_swap _ _ _ Hin)). apply Hl1, Hin.
  - rewrite Hb2, Hb. reflexivity.
Qed.

Lemma cli_reverse_twice_witness :
  let s := mkCli swap_dir (Some (save_rename_plan_json swap_plan)) [] in
  exists s1 s2,
    cli_run_tail posix_rename hex_supply (Ok []) false true s = (s1, Ok tt) /\
    (forall k v, In (k, v) swap_plan -> files (cli_world s1) !! k = files swap_dir !! v) /\
    backup s1 = Some (save_rename_plan_json (map swap_pair swap_plan)) /\
    cli_run_tail posix_rename hex_supply (Ok []) false true s1 = (s2, Ok tt) /\
    files (cli_world s2) = files swap_dir /\
    backup s2 = backup s.
Proof.
  apply (cli_reverse_twice hex_supply swap_plan [] []
           (mkCli swap_dir (Some (save_rename_plan_json swap_plan)) [])).
  - decide_it.
  - decide_it.
  - unfold path_fixed. repeat constructor.
  - reflexivity.
  - decide_it.
  - decide_it.
  - fresh_it.
  - decide_it.
  - fresh_it.
Defined.

Lemma cli_rename_then_reverse_witness :
  exists s1 s2,
    cli_run_tail posix_rename hex_supply (Ok swap_plan) false false (mkCli swap_dir None []) = (s1, Ok tt) /\
    (forall k v, In (k, v) swap_plan -> files (cli_world s1) !! v = files swap_dir !! k) /\
    backup s1 = Some (save_rename_plan_json swap_plan) /\
    cli_run_tail posix_rename hex_supply (Ok []) false true s1 = (s2, Ok tt) /\
    files (cli_world s2) = files swap_dir /\
    backup s2 = Some (save_rename_plan_json (map swap_pair swap_plan)).
Proof.
  apply (cli_rename_then_reverse hex_supply swap_plan [] (mkCli swap_dir None [])).
  - decide_it.
  - decide_it.
  - unfold path_fixed. repeat constructor.
  - decide_it.
  - decide_it.
  - fresh_it.
  - decide_it.
  - fresh_it.
Defined.


